(** * Hypercane: the memento collection model and off-topic reduction

    A shallow embedding of [hypercane/reduce/remove_offtopic.py]:
    the class [HypercaneMementoCollectionModel] (a view over a cached HTTP
    session and three MongoDB collections) and the functions
    [get_list_of_ontopic] and [detect_off_topic].

    Python methods become functions in a state-and-exception monad over the
    record [Model]; the MongoDB collections are lists of documents in
    insertion order; the external collaborators (the cached session,
    [otmt.generate_raw_urim], [justext], [Simhash], [strptime],
    [aiu.convert_LinkTimeMap_to_dict]) are variables of a section. *)

From Stdlib Require Import String Ascii List ZArith NArith QArith Lia Bool.
From Stdlib Require Import OrdersEx DecimalString.
From stdpp Require Import base option list gmap strings sorting.

Local Open Scope string_scope.
Local Open Scope list_scope.

(** ** Data *)

Definition URI := string.

(** [requests.exceptions]: every exception of the library derives from
    [RequestException]; each value carries its [repr]. *)
Inductive RequestException :=
| ConnectionError (repr : string)
| TooManyRedirects (repr : string)
| OtherRequestException (repr : string).

Definition repr (e : RequestException) : string :=
  match e with
  | ConnectionError r | TooManyRedirects r | OtherRequestException r => r
  end.

(** A response of the session. Header names are the keys of a
    case-insensitive dictionary, kept here in lower case. *)
Record Response := {
  status_code : Z;
  headers : gmap string string;
  text : string
}.

Inductive FetchResult :=
| Fetched (r : Response)
| FetchRaises (e : RequestException).

(** The exceptions the module raises or lets through. *)
Inductive Exn :=
| CollectionModelNoSuchMementoException
| CollectionModelMementoErrorException (msg : string)
| CollectionModelBoilerPlateRemovalFailureException (msg : string)
| RequestExn (e : RequestException)
| LxmlParserError (repr : string)
| LxmlXMLSyntaxError (repr : string)
| MalformedTimeMap
| KeyError (key : string)
| ValueError
| IndexError.

(** The value stored under ["error_information"]: [bytes(repr(e), "utf8")]
    at lines 59 and 93, a formatted [str] at line 90. *)
Inductive ErrorInformation :=
| ErrStr (s : string)
| ErrBytes (b : string).

(** Documents of [db.mementoerrors], [db.bpfree] and [db.derivedvalues]. *)
Record ErrorDoc := {
  err_urim : URI;
  error_information : ErrorInformation
}.

Record BpDoc := {
  bp_urim : URI;
  boilerplate_free_content : string;
  algorithm : string
}.

(** A derived-values document may lack the ["raw simhash"] key (the
    [KeyError] branch of [getRawSimhash]). *)
Record DerivedDoc := {
  dv_urim : URI;
  raw_simhash : option string
}.

(** Invocations of the collaborators, in the order they happen. *)
Inductive Call :=
| CallGet (uri : URI)
| CallJustext (content : string)
| CallSimhash (content : string).

Record Model := {
  error_collection : list ErrorDoc;
  bpfree_collection : list BpDoc;
  derived_collection : list DerivedDoc;
  urimlist : list URI;
  uritlist : list URI;
  calls : list Call
}.

(** [__init__] with empty collections. *)
Definition init : Model :=
  {| error_collection := []; bpfree_collection := []; derived_collection := [];
     urimlist := []; uritlist := []; calls := [] |}.

Definition set_error_collection (f : list ErrorDoc -> list ErrorDoc) (s : Model) : Model :=
  {| error_collection := f (error_collection s);
     bpfree_collection := bpfree_collection s;
     derived_collection := derived_collection s;
     urimlist := urimlist s; uritlist := uritlist s; calls := calls s |}.

Definition set_bpfree_collection (f : list BpDoc -> list BpDoc) (s : Model) : Model :=
  {| error_collection := error_collection s;
     bpfree_collection := f (bpfree_collection s);
     derived_collection := derived_collection s;
     urimlist := urimlist s; uritlist := uritlist s; calls := calls s |}.

Definition set_derived_collection (f : list DerivedDoc -> list DerivedDoc) (s : Model) : Model :=
  {| error_collection := error_collection s;
     bpfree_collection := bpfree_collection s;
     derived_collection := f (derived_collection s);
     urimlist := urimlist s; uritlist := uritlist s; calls := calls s |}.

Definition set_urimlist (f : list URI -> list URI) (s : Model) : Model :=
  {| error_collection := error_collection s;
     bpfree_collection := bpfree_collection s;
     derived_collection := derived_collection s;
     urimlist := f (urimlist s); uritlist := uritlist s; calls := calls s |}.

Definition set_uritlist (f : list URI -> list URI) (s : Model) : Model :=
  {| error_collection := error_collection s;
     bpfree_collection := bpfree_collection s;
     derived_collection := derived_collection s;
     urimlist := urimlist s; uritlist := f (uritlist s); calls := calls s |}.

Definition log_call (c : Call) (s : Model) : Model :=
  {| error_collection := error_collection s;
     bpfree_collection := bpfree_collection s;
     derived_collection := derived_collection s;
     urimlist := urimlist s; uritlist := uritlist s; calls := calls s ++ [c] |}.

(** ** The monad of methods: state passing, with exceptions *)

Inductive Outcome (A : Type) :=
| Ok (a : A)
| Raise (e : Exn).
Arguments Ok {A} a.
Arguments Raise {A} e.

Definition M (A : Type) : Type := Model -> Outcome A * Model.

Definition ret {A} (a : A) : M A := fun s => (Ok a, s).
Definition raise {A} (e : Exn) : M A := fun s => (Raise e, s).
Definition bind {A B} (m : M A) (k : A -> M B) : M B :=
  fun s => match m s with
           | (Ok a, s') => k a s'
           | (Raise e, s') => (Raise e, s')
           end.
Definition modify (f : Model -> Model) : M unit := fun s => (Ok tt, f s).
Definition gets {A} (f : Model -> A) : M A := fun s => (Ok (f s), s).

(** [try: m except <the exceptions h handles>: h e] *)
Definition try_except {A} (m : M A) (h : Exn -> option (M A)) : M A :=
  fun s => match m s with
           | (Ok a, s') => (Ok a, s')
           | (Raise e, s') =>
               match h e with
               | Some k => k s'
               | None => (Raise e, s')
               end
           end.

Notation "'do' x <- m ; k" := (bind m (fun x => k))
  (at level 10, x name, m at level 100, k at level 200).
Notation "'do_' m ; k" := (bind m (fun _ => k))
  (at level 10, m at level 100, k at level 200).

(** [for x in l: acc.append(f(x))], stopping at the first exception. *)
Fixpoint mapM {A B} (f : A -> M B) (l : list A) : M (list B) :=
  match l with
  | [] => ret []
  | x :: r => do y <- f x; do ys <- mapM f r; ret (y :: ys)
  end.

(** [collection.find_one({"urim": urim})]: the first document, in
    insertion order, whose key matches. *)
Definition find_one {D} (key : D -> URI) (urim : URI) (coll : list D) : option D :=
  List.find (fun d => String.eqb (key d) urim) coll.

(** The line feed of ["{}\n".format(...)]. *)
Definition newline : string := String (ascii_of_nat 10) EmptyString.

(** [str(n)] for a non-negative integer. *)
Definition str_of_N (n : N) : string := NilZero.string_of_uint (N.to_uint n).

(** [datetime]: naive date and time, ordered field by field. *)
Record datetime := {
  year : nat; month : nat; day : nat;
  hour : nat; minute : nat; second : nat
}.

(** ** Python's ordering of tuples, and [sorted(..., reverse=True)] *)

(** Tuples compare by their first component, then by the next. *)
Definition lex (c1 c2 : comparison) : comparison :=
  match c1 with Eq => c2 | _ => c1 end.

Definition datetime_compare (a b : datetime) : comparison :=
  lex (year a ?= year b)%nat
  (lex (month a ?= month b)%nat
  (lex (day a ?= day b)%nat
  (lex (hour a ?= hour b)%nat
  (lex (minute a ?= minute b)%nat
       (second a ?= second b)%nat)))).

(** [str] compares by code point, character by character. *)
Definition str_compare (a b : string) : comparison := String_as_OT.compare a b.

Definition tuple_compare (p q : datetime * URI) : comparison :=
  lex (datetime_compare (fst p) (fst q)) (str_compare (snd p) (snd q)).

(** [p > q] on tuples. *)
Definition tuple_gtb (p q : datetime * URI) : bool :=
  match tuple_compare p q with Gt => true | _ => false end.

(** A stable sort into descending order: [x] goes before the first element
    that is not strictly greater. *)
Fixpoint insert_reverse (x : datetime * URI) (l : list (datetime * URI))
  : list (datetime * URI) :=
  match l with
  | [] => [x]
  | y :: r => if tuple_gtb y x then y :: insert_reverse x r else x :: y :: r
  end.

Definition sorted_reverse (l : list (datetime * URI)) : list (datetime * URI) :=
  foldr insert_reverse [] l.

(** [p <= q] on tuples. *)
Definition tuple_le (p q : datetime * URI) : Prop := tuple_compare p q <> Gt.

(** What a three-way comparison must satisfy to order a type totally, up to
    the elements it holds equal. *)
Record Comparison {A} (cmp : A -> A -> comparison) : Prop := {
  cmp_refl : forall x, cmp x x = Eq;
  cmp_antisym : forall x y, cmp y x = CompOpp (cmp x y);
  cmp_trans : forall c x y z, cmp x y = c -> cmp y z = c -> cmp x z = c;
  cmp_eq_l : forall x y z, cmp x y = Eq -> cmp x z = cmp y z
}.

(** ** The collection model *)

(** What [justext(html, stoplist)] gives: the paragraphs' texts, or one of
    the two lxml errors the caller handles. *)
Inductive JustextResult :=
| Paragraphs (texts : list string)
| ParserError (repr : string)
| XMLSyntaxError (repr : string).

(** A future of [FuturesSession.get]: [done()] holds from the
    [ready_at]-th poll of the ingestion loop on, and [result()] then
    returns the response or raises. *)
Record Future := {
  ready_at : nat;
  outcome : FetchResult
}.

(** How a run of a polling loop ends: it returns or raises, or it is still
    running when the fuel is spent. *)
Inductive Run :=
| Finished (r : Outcome unit) (s : Model)
| OutOfFuel (s : Model).

(** [list.remove(x)]: the first occurrence goes. *)
Fixpoint list_remove (x : URI) (l : list URI) : list URI :=
  match l with
  | [] => []
  | y :: r => if String.eqb y x then r else y :: list_remove x r
  end.

(** [random.choice(l)] when the generator draws [k]. *)
Definition choice (k : nat) (l : list URI) : URI :=
  nth (k mod length l) l "".

(** [derived_collection.update({"urim": urim}, {"$set": {"raw simhash": h}})]:
    the first matching document gets the field. *)
Fixpoint update_raw_simhash (urim : URI) (h : string) (coll : list DerivedDoc)
  : list DerivedDoc :=
  match coll with
  | [] => []
  | d :: r =>
      if String.eqb (dv_urim d) urim
      then {| dv_urim := dv_urim d; raw_simhash := Some h |} :: r
      else d :: update_raw_simhash urim h r
  end.

Definition record_error (urim : URI) (errorinformation : ErrorInformation)
  (s : Model) : Model :=
  set_error_collection
    (fun c => c ++ [{| err_urim := urim; error_information := errorinformation |}]) s.

Section CollectionModel.

(** The cached session: what [session.get(uri)] returns or raises. *)
Variable session_get : URI -> FetchResult.
(** [otmt.generate_raw_urim]. *)
Variable generate_raw_urim : URI -> URI.
(** [justext(content, get_stoplist('English'))]. *)
Variable justext : string -> JustextResult.
(** [Simhash(content).value]. *)
Variable Simhash : string -> N.
(** [aiu.convert_LinkTimeMap_to_dict]; [None] when it raises. *)
Variable TimeMapDict : Type.
Variable convert_LinkTimeMap_to_dict : string -> option TimeMapDict.
(** [datetime.strptime(v, "%a, %d %b %Y %H:%M:%S GMT")]; [None] when it
    raises [ValueError]. *)
Variable strptime : string -> option datetime.

Definition get (uri : URI) : M Response :=
  fun s =>
    match session_get uri with
    | Fetched r => (Ok r, log_call (CallGet uri) s)
    | FetchRaises e => (Raise (RequestExn e), log_call (CallGet uri) s)
    end.

Definition addTimeMap (urit : URI) : M unit :=
  do_ get urit;
  modify (set_uritlist (fun l => l ++ [urit])).

Definition getTimeMap (urit : URI) : M TimeMapDict :=
  do r <- get urit;
  match convert_LinkTimeMap_to_dict (text r) with
  | Some d => ret d
  | None => raise MalformedTimeMap
  end.

Definition addMementoError (urim : URI) (errorinformation : ErrorInformation)
  : M unit :=
  modify (record_error urim errorinformation).

Definition addMemento (urim : URI) : M unit :=
  try_except
    (do_ get urim;
     let raw_urim := generate_raw_urim urim in
     do_ get raw_urim;
     modify (set_urimlist (fun l => l ++ [urim])))
    (fun e =>
       match e with
       | RequestExn (ConnectionError _ as e')
       | RequestExn (TooManyRedirects _ as e') =>
           Some (addMementoError urim (ErrBytes (repr e')))
       | _ => None
       end).

Definition getMementoContent (urim : URI) : M string :=
  let raw_urim := generate_raw_urim urim in
  do r <- get raw_urim;
  ret (text r).

(** Both branches of [if urim in self.urimlist] end in [None]: one by
    [return None], the other by falling off the end of the function. *)
Definition getMementoErrorInformation (urim : URI) : M (option ErrorInformation) :=
  do result <- gets (fun s => find_one err_urim urim (error_collection s));
  match result with
  | None =>
      do registered <- gets (fun s => bool_decide (urim ∈ urimlist s));
      if registered then ret None else ret None
  | Some d => ret (Some (error_information d))
  end.

Definition call_justext (content : string) : M (list string) :=
  fun s =>
    match justext content with
    | Paragraphs ps => (Ok ps, log_call (CallJustext content) s)
    | ParserError r => (Raise (LxmlParserError r), log_call (CallJustext content) s)
    | XMLSyntaxError r => (Raise (LxmlXMLSyntaxError r), log_call (CallJustext content) s)
    end.

Definition getMementoContentWithoutBoilerplate (urim : URI) : M string :=
  do info <- getMementoErrorInformation urim;
  match info with
  | Some _ =>
      raise (CollectionModelMementoErrorException
               ("Errors were recorded for URI-M " +:+ urim))
  | None =>
      do bprecord <- gets (fun s => find_one bp_urim urim (bpfree_collection s));
      match bprecord with
      | Some d => ret (boilerplate_free_content d)
      | None =>
          try_except
            (do content <- getMementoContent urim;
             do paragraphs <- call_justext content;
             let content_without_boilerplate :=
               fold_left (fun acc p => acc +:+ p +:+ newline) paragraphs "" in
             do_ modify (set_bpfree_collection (fun c => c ++
                   [{| bp_urim := urim;
                       boilerplate_free_content := content_without_boilerplate;
                       algorithm := "justext" |}]));
             ret content_without_boilerplate)
            (fun e =>
               match e with
               | LxmlParserError r | LxmlXMLSyntaxError r =>
                   Some (raise (CollectionModelBoilerPlateRemovalFailureException r))
               | _ => None
               end)
      end
  end.

Definition call_Simhash (content : string) : M N :=
  fun s => (Ok (Simhash content), log_call (CallSimhash content) s).

Definition getRawSimhash (urim : URI) : M string :=
  do info <- getMementoErrorInformation urim;
  match info with
  | Some _ =>
      raise (CollectionModelMementoErrorException
               ("Errors were recorded for URI-M " +:+ urim))
  | None =>
      do derived_record <-
        gets (fun s => find_one dv_urim urim (derived_collection s));
      match derived_record with
      | Some d =>
          match raw_simhash d with
          | Some h => ret h
          | None =>
              do content <- getMementoContent urim;
              do h <- call_Simhash content;
              do_ modify (set_derived_collection
                            (update_raw_simhash urim (str_of_N h)));
              ret (str_of_N h)
          end
      | None =>
          do content <- getMementoContent urim;
          do h <- call_Simhash content;
          do_ modify (set_derived_collection (fun c => c ++
                [{| dv_urim := urim; raw_simhash := Some (str_of_N h) |}]));
          ret (str_of_N h)
      end
  end.

Definition getMementoHeaders (urim : URI) : M (gmap string string) :=
  do r <- get urim;
  ret (headers r).

(** [derived_collection.find({"raw simhash": h}, {"urim": 1})]. *)
Definition find_by_raw_simhash (h : string) (coll : list DerivedDoc) : list URI :=
  map dv_urim
    (List.filter (fun d => match raw_simhash d with
                           | Some h' => String.eqb h' h
                           | None => false
                           end) coll).

(** The body of [for record in matching_cursor]: the tuple appended for
    one URI-M. *)
Definition matching_tuple (urim : URI) : M (datetime * URI) :=
  do hs <- getMementoHeaders urim;
  match hs !! "memento-datetime" with
  | None => raise (KeyError "memento-datetime")
  | Some v =>
      match strptime v with
      | None => raise ValueError
      | Some mdt => ret (mdt, urim)
      end
  end.

Definition getFirstURIMByRawSimhash (h : string) : M (datetime * URI) :=
  do matching_cursor <- gets (fun s => find_by_raw_simhash h (derived_collection s));
  do matching_urims <- mapM matching_tuple matching_cursor;
  match sorted_reverse matching_urims with
  | [] => raise IndexError
  | first :: _ => ret first
  end.

Definition getMementoURIList : M (list URI) := gets urimlist.
Definition getTimeMapURIList : M (list URI) := gets uritlist.

(** *** Batch ingestion *)

(** The first loop of [addManyMementos]: one future per URI-M and one per
    raw URI-M, later entries of the dictionary replacing earlier ones;
    [latency uri] is the poll from which the future of [uri] is done. *)
Variable latency : URI -> nat.

Definition submit (uri : URI) : Future :=
  {| ready_at := latency uri; outcome := session_get uri |}.

Fixpoint submit_all (urims : list URI)
  (working_urim_list : list URI) (futures : gmap URI Future) (s : Model)
  : list URI * gmap URI Future * Model :=
  match urims with
  | [] => (working_urim_list, futures, s)
  | uri :: rest =>
      let raw_urim := generate_raw_urim uri in
      submit_all rest (working_urim_list ++ [uri])
        (<[raw_urim := submit raw_urim]> (<[uri := submit uri]> futures))
        (log_call (CallGet raw_urim) (log_call (CallGet uri) s))
  end.

(** The second loop, [for uri in uri_generator(working_urim_list)], where
    [draw t] is what the random generator yields at the [t]-th poll. *)
Variable draw : nat -> nat.

Fixpoint poll (fuel : nat) (t : nat)
  (working_urim_list : list URI) (futures : gmap URI Future) (s : Model) : Run :=
  match working_urim_list with
  | [] => Finished (Ok tt) s
  | _ :: _ =>
      match fuel with
      | O => OutOfFuel s
      | S fuel' =>
          let uri := choice (draw t) working_urim_list in
          match futures !! uri with
          | None => Finished (Raise (KeyError uri)) s
          | Some f =>
              if (ready_at f <=? t)%nat then
                match outcome f with
                | Fetched r =>
                    let s' :=
                      match headers r !! "memento-datetime" with
                      | Some _ => s
                      | None =>
                          record_error uri
                            (ErrStr ("URI-M " +:+ uri +:+ " does not produce a memento")) s
                      end in
                    poll fuel' (S t) (list_remove uri working_urim_list)
                      (delete uri futures) s'
                | FetchRaises e =>
                    poll fuel' (S t) working_urim_list futures
                      (record_error uri (ErrBytes (repr e)) s)
                end
              else poll fuel' (S t) working_urim_list futures s
          end
      end
  end.

Definition addManyMementos (fuel : nat) (urims : list URI) (s : Model) : Run :=
  let '(working_urim_list, futures, s') := submit_all urims [] ∅ s in
  poll fuel 0 working_urim_list futures s'.

End CollectionModel.

(** ** Off-topic detection *)

Inductive TopicStatus := OnTopic | OffTopic.

Definition TopicStatus_eqb (a b : TopicStatus) : bool :=
  match a, b with
  | OnTopic, OnTopic | OffTopic, OffTopic => true
  | _, _ => false
  end.

(** Modelled from the spec: the comparison direction registered with a
    measure ([otmt.supported_timemap_measures] is not part of this
    repository), read as the relation a score must have to the threshold for
    the memento to be on-topic. *)
Inductive Direction := GE | LE | GT | LT.

Definition passes (d : Direction) (score threshold : Q) : bool :=
  match d with
  | GE => Qle_bool threshold score
  | LE => Qle_bool score threshold
  | GT => negb (Qle_bool score threshold)
  | LT => negb (Qle_bool threshold score)
  end.

(** Modelled from the spec: what [otmt.MeasureModel] keeps for one URI-M,
    the comparison score and the verdict of each measure run so far, and the
    overall verdict once it has been calculated. *)
Record MementoMeasures := {
  comparison_score : list (string * Q);
  topic_status : list (string * TopicStatus);
  overall_topic_status : option TopicStatus
}.

(** Modelled from the spec: [otmt.MeasureModel], the URI-Ts with their
    URI-Ms in scanning order, and the measures of each URI-M. *)
Record MeasureModel := {
  scoremodel : list (URI * list URI);
  measures : gmap URI MementoMeasures
}.

Definition empty_MeasureModel : MeasureModel :=
  {| scoremodel := []; measures := ∅ |}.

Definition assoc {V} (k : string) (l : list (string * V)) : option V :=
  match List.find (fun kv => String.eqb (fst kv) k) l with
  | Some kv => Some (snd kv)
  | None => None
  end.

(** Modelled from the spec: [MeasureModel.calculate_offtopic_by_measure],
    step 2 of the classification: every URI-M that has a score for [measure]
    gets that measure's verdict, by the direction and the threshold. *)
Definition calculate_offtopic_by_measure (measure : string) (threshold : Q)
  (direction : Direction) (mm : MeasureModel) : MeasureModel :=
  {| scoremodel := scoremodel mm;
     measures :=
       (fun m =>
          match assoc measure (comparison_score m) with
          | Some score =>
              {| comparison_score := comparison_score m;
                 topic_status :=
                   (measure, if passes direction score threshold
                             then OnTopic else OffTopic)
                   :: List.filter (fun kv => negb (String.eqb (fst kv) measure))
                        (topic_status m);
                 overall_topic_status := overall_topic_status m |}
          | None => m
          end) <$> measures mm |}.

(** Modelled from the spec: [MeasureModel.calculate_overall_offtopic_status],
    step 3 of the classification: on-topic only if the verdict of every
    measure is on-topic. *)
Definition calculate_overall_offtopic_status (mm : MeasureModel) : MeasureModel :=
  {| scoremodel := scoremodel mm;
     measures :=
       (fun m =>
          {| comparison_score := comparison_score m;
             topic_status := topic_status m;
             overall_topic_status :=
               Some (if forallb (fun kv => TopicStatus_eqb (snd kv) OnTopic)
                          (topic_status m)
                     then OnTopic else OffTopic) |}) <$> measures mm |}.

(** Modelled from the spec: [MeasureModel.get_overall_off_topic_status];
    [None] stands for the [KeyError] of a URI-M without an overall verdict. *)
Definition get_overall_off_topic_status (mm : MeasureModel) (urim : URI)
  : option TopicStatus :=
  match measures mm !! urim with
  | Some m => overall_topic_status m
  | None => None
  end.

(** [get_list_of_ontopic]: TimeMap by TimeMap, memento by memento; a
    [KeyError] is logged and the URI-M is left out. *)
Definition get_list_of_ontopic (measuremodel : MeasureModel) : list URI :=
  flat_map
    (fun '(urit, urims) =>
       List.filter
         (fun urim =>
            match get_overall_off_topic_status measuremodel urim with
            | Some OnTopic => true
            | Some OffTopic => false
            | None => false
            end) urims)
    (scoremodel measuremodel).

(** An entry of [otmt.supported_timemap_measures]: the function takes the
    collection model (the state of the monad), the measure model so far and,
    for the topic-model measures, the number of topics. *)
Record MeasureEntry := {
  function : MeasureModel -> option nat -> M MeasureModel;
  comparison_direction : Direction;
  default_number_of_topics : option nat
}.

(** What an iteration of a [for] loop does next. *)
Inductive LoopStep (St R : Type) :=
| Continue (st : St)
| Return (r : R).
Arguments Continue {St R} st.
Arguments Return {St R} r.

(** [for x in l: body], where the body may [return]: the loop ends with the
    value returned, or runs to its end with the state it has reached. *)
Fixpoint for_each {A St R} (l : list A) (body : A -> St -> M (LoopStep St R))
  (st : St) : M (LoopStep St R) :=
  match l with
  | [] => ret (Continue st)
  | x :: rest =>
      do step <- body x st;
      match step with
      | Continue st' => for_each rest body st'
      | Return r => ret (Return r)
      end
  end.

Section DetectOffTopic.

Variable supported_timemap_measures : string -> option MeasureEntry.

Definition lookup_measure (measure : string) : M MeasureEntry :=
  match supported_timemap_measures measure with
  | Some entry => ret entry
  | None => raise (KeyError measure)
  end.

(** Lines 286 to 308 of the body of [for measure in timemap_measures]: the
    measure is run and its scores are thresholded; the loop carries [mm] and
    [num_topics]. *)
Definition run_measure (kv : string * Q) (st : MeasureModel * option nat)
  : M (MeasureModel * option nat) :=
  let '(measure, threshold) := kv in
  let '(mm, num_topics) := st in
  do entry <- lookup_measure measure;
  do mm_nt <-
    (if String.eqb measure "gensim_lda" || String.eqb measure "gensim_lsi" then
       do num_topics' <-
         match num_topics with
         | Some n => ret (Some n)
         | None =>
             match default_number_of_topics entry with
             | Some n => ret (Some n)
             | None => raise (KeyError "default number of topics")
             end
         end;
       do mm' <- function entry mm num_topics';
       ret (mm', num_topics')
     else
       do mm' <- function entry mm None;
       ret (mm', num_topics));
  ret (calculate_offtopic_by_measure measure threshold
         (comparison_direction entry) (fst mm_nt), snd mm_nt).

(** The body of the loop as it is indented in the source: lines 310 to 314,
    the last of which is [return ontopic_mementos], belong to it. *)
Definition detect_off_topic_body (kv : string * Q)
  (st : MeasureModel * option nat)
  : M (LoopStep (MeasureModel * option nat) (list URI)) :=
  do st' <- run_measure kv st;
  let mm := calculate_overall_offtopic_status (fst st') in
  let ontopic_mementos := get_list_of_ontopic mm in
  ret (Return ontopic_mementos).

(** [None] is Python's [None]: with no measure the loop body never runs
    and the function ends without a [return]. *)
Definition detect_off_topic (timemap_measures : list (string * Q))
  (num_topics : option nat) : M (option (list URI)) :=
  do step <- for_each timemap_measures detect_off_topic_body
               (empty_MeasureModel, num_topics);
  match step with
  | Return ontopic_mementos => ret (Some ontopic_mementos)
  | Continue _ => ret None
  end.

(** Modelled from the spec: the classification of section 4.3, where every
    measure of the mapping is run and thresholded before the overall verdict
    is calculated and the on-topic URI-Ms are listed. *)
Definition classify (timemap_measures : list (string * Q))
  (num_topics : option nat) : M (list URI) :=
  do step <- for_each (R := list URI) timemap_measures
               (fun kv st => do st' <- run_measure kv st; ret (Continue st'))
               (empty_MeasureModel, num_topics);
  match step with
  | Return ontopic_mementos => ret ontopic_mementos
  | Continue st =>
      ret (get_list_of_ontopic (calculate_overall_offtopic_status (fst st)))
  end.

End DetectOffTopic.

(** ** Sessions: sequences of method calls on one collection model *)

Inductive MethodCall :=
| AddTimeMap (urit : URI)
| GetTimeMap (urit : URI)
| AddMemento (urim : URI)
| AddManyMementos (latency : URI -> nat) (draw : nat -> nat) (fuel : nat)
    (urims : list URI)
| AddMementoError (urim : URI) (errorinformation : ErrorInformation)
| GetMementoContent (urim : URI)
| GetMementoErrorInformation (urim : URI)
| GetMementoContentWithoutBoilerplate (urim : URI)
| GetRawSimhash (urim : URI)
| GetFirstURIMByRawSimhash (h : string)
| GetMementoHeaders (urim : URI)
| GetMementoURIList
| GetTimeMapURIList.

(** The model a method leaves behind, whether it returns or raises. *)
Definition after {A} (m : M A) (s : Model) : Model := snd (m s).

(** The model a polling loop has reached when it ends or the fuel is spent. *)
Definition run_state (r : Run) : Model :=
  match r with
  | Finished _ s => s
  | OutOfFuel s => s
  end.

(** Whether a run came to its end without an exception. *)
Definition returns (r : Run) : bool :=
  match r with
  | Finished (Ok _) _ => true
  | _ => false
  end.

(** The stores and the registered lists of two models agree (the log of
    collaborator calls may differ). *)
Definition same_stores (s s' : Model) : Prop :=
  error_collection s' = error_collection s /\
  bpfree_collection s' = bpfree_collection s /\
  derived_collection s' = derived_collection s /\
  urimlist s' = urimlist s /\
  uritlist s' = uritlist s.

(** The calls that may write an Error Record for [u]. *)
Definition records_error_for (u : URI) (c : MethodCall) : Prop :=
  match c with
  | AddMemento urim => urim = u
  | AddMementoError urim _ => urim = u
  | AddManyMementos _ _ _ urims => u ∈ urims
  | _ => False
  end.

(** The boilerplate-free text and the fingerprint stored for a URI-M: the
    fields of the document [find_one] gives. *)
Definition stored_bpfree (u : URI) (s : Model) : option string :=
  match find_one bp_urim u (bpfree_collection s) with
  | Some d => Some (boilerplate_free_content d)
  | None => None
  end.

Definition stored_raw_simhash (u : URI) (s : Model) : option string :=
  match find_one dv_urim u (derived_collection s) with
  | Some d => raw_simhash d
  | None => None
  end.

(** How often the extractor and the fingerprinting function were invoked. *)
Definition is_CallJustext (c : Call) : bool :=
  match c with CallJustext _ => true | _ => false end.

Definition is_CallSimhash (c : Call) : bool :=
  match c with CallSimhash _ => true | _ => false end.

Definition justext_calls (s : Model) : nat :=
  length (List.filter is_CallJustext (calls s)).

Definition Simhash_calls (s : Model) : nat :=
  length (List.filter is_CallSimhash (calls s)).

(** The largest latency among the futures of [urims]. *)
Definition max_latency (latency : URI -> nat) (urims : list URI) : nat :=
  foldr Nat.max 0 (map latency urims).

Section Sessions.

Variable session_get : URI -> FetchResult.
Variable generate_raw_urim : URI -> URI.
Variable justext : string -> JustextResult.
Variable Simhash : string -> N.
Variable TimeMapDict : Type.
Variable convert_LinkTimeMap_to_dict : string -> option TimeMapDict.
Variable strptime : string -> option datetime.

Definition exec (c : MethodCall) (s : Model) : Model :=
  match c with
  | AddTimeMap urit => after (addTimeMap session_get urit) s
  | GetTimeMap urit =>
      after (getTimeMap session_get TimeMapDict convert_LinkTimeMap_to_dict urit) s
  | AddMemento urim => after (addMemento session_get generate_raw_urim urim) s
  | AddManyMementos latency draw fuel urims =>
      run_state (addManyMementos session_get generate_raw_urim latency draw fuel urims s)
  | AddMementoError urim info => after (addMementoError urim info) s
  | GetMementoContent urim =>
      after (getMementoContent session_get generate_raw_urim urim) s
  | GetMementoErrorInformation urim => after (getMementoErrorInformation urim) s
  | GetMementoContentWithoutBoilerplate urim =>
      after (getMementoContentWithoutBoilerplate session_get generate_raw_urim
               justext urim) s
  | GetRawSimhash urim =>
      after (getRawSimhash session_get generate_raw_urim Simhash urim) s
  | GetFirstURIMByRawSimhash h =>
      after (getFirstURIMByRawSimhash session_get strptime h) s
  | GetMementoHeaders urim => after (getMementoHeaders session_get urim) s
  | GetMementoURIList => after getMementoURIList s
  | GetTimeMapURIList => after getTimeMapURIList s
  end.

Definition exec_all (cs : list MethodCall) (s : Model) : Model :=
  fold_left (fun s c => exec c s) cs s.

(** Whether a URI-M's cached response lacks the [memento-datetime] header. *)
Definition lacks_memento_datetime (uri : URI) : bool :=
  match session_get uri with
  | Fetched r =>
      match headers r !! "memento-datetime" with
      | Some _ => false
      | None => true
      end
  | FetchRaises _ => false
  end.

(** The capture time [getFirstURIMByRawSimhash] resolves for a URI-M. *)
Definition capture_time (urim : URI) : option datetime :=
  match session_get urim with
  | Fetched r =>
      match headers r !! "memento-datetime" with
      | Some v => strptime v
      | None => None
      end
  | FetchRaises _ => None
  end.

End Sessions.

(** ** Outcomes of the two fetches of [addMemento] *)

(** The exceptions [addMemento] handles: [ConnectionError] and
    [TooManyRedirects]. *)
Definition is_connection_failure (e : RequestException) : bool :=
  match e with
  | ConnectionError _ | TooManyRedirects _ => true
  | OtherRequestException _ => false
  end.

(** The calls that only read: they may fetch through the session, and
    write neither to a store nor to a list. *)
Definition read_only (c : MethodCall) : bool :=
  match c with
  | GetTimeMap _ | GetMementoContent _ | GetMementoErrorInformation _
  | GetFirstURIMByRawSimhash _ | GetMementoHeaders _
  | GetMementoURIList | GetTimeMapURIList => true
  | _ => false
  end.

Section Fetches.

Variable session_get : URI -> FetchResult.
Variable generate_raw_urim : URI -> URI.

(** The first exception the two fetches of [addMemento urim] meet, if any:
    the raw URI-M is fetched only when the URI-M itself yields a response. *)
Definition fetch_failure (urim : URI) : option RequestException :=
  match session_get urim with
  | FetchRaises e => Some e
  | Fetched _ =>
      match session_get (generate_raw_urim urim) with
      | FetchRaises e => Some e
      | Fetched _ => None
      end
  end.

Definition both_fetched (urim : URI) : bool :=
  match fetch_failure urim with
  | None => true
  | Some _ => false
  end.

Definition failure_recorded (urim : URI) : bool :=
  match fetch_failure urim with
  | Some e => is_connection_failure e
  | None => false
  end.

End Fetches.

(** ** Command-line input types ([hypercane/actions/__init__.py]) *)

(** [c in s] for a one-character string [c]. *)
Fixpoint contains (c : ascii) (s : string) : bool :=
  match s with
  | EmptyString => false
  | String a r => Ascii.eqb a c || contains c r
  end.

(** [s.count(c)]. *)
Fixpoint count_char (c : ascii) (s : string) : nat :=
  match s with
  | EmptyString => 0
  | String a r => (if Ascii.eqb a c then 1 else 0) + count_char c r
  end.

(** [s.split(sep)] for a one-character separator: the pieces between the
    separators, empty pieces included; never an empty list. *)
Fixpoint split_on (sep : ascii) (s : string) : list string :=
  match s with
  | EmptyString => [EmptyString]
  | String a r =>
      if Ascii.eqb a sep then EmptyString :: split_on sep r
      else match split_on sep r with
           | [] => [String a EmptyString]
           | piece :: pieces => String a piece :: pieces
           end
  end.

(** What [process_collection_input_types] raises: [argparse.ArgumentTypeError]
    with its message, or the [ValueError] of unpacking a list that has not two
    elements. *)
Inductive CliError :=
| ArgumentTypeError (msg : string)
| UnpackValueError (msg : string).

Definition supported_input_types : list string :=
  ["archiveit"; "timemaps"; "mementos"; "original-resources"; "warcs"].

Definition process_collection_input_types (input_argument : string)
  : CliError + (string * string) :=
  if negb (contains "=" input_argument) then
    inl (ArgumentTypeError
           ("no required argument supplied for input type " +:+ input_argument
            +:+ newline +:+ newline +:+ "Examples:" +:+ newline
            +:+ "for an Archive-It collection use something like" +:+ newline
            +:+ "-i archiveit=3639"))
  else
    match split_on "=" input_argument with
    | [input_type; argument] =>
        if negb (existsb (String.eqb input_type) supported_input_types) then
          inl (ArgumentTypeError
                 (input_type +:+ " is not a supported input type, supported types are "
                  +:+ "['archiveit', 'timemaps', 'mementos', 'original-resources', 'warcs']"))
        else inr (input_type, argument)
    | [] | [_] => inl (UnpackValueError "not enough values to unpack (expected 2, got 1)")
    | _ :: _ :: _ :: _ => inl (UnpackValueError "too many values to unpack (expected 2)")
    end.

(** ** The story of [raintale_story] ([hypercane/actions/synthesize.py]) *)

(** A value read by [json.load]; a number stands for an integer. *)
#[local] Unset Elimination Schemes.
Inductive JSON :=
| JNull
| JBool (b : bool)
| JNumber (z : Z)
| JString (s : string)
| JArray (items : list JSON)
| JObject (fields : list (string * JSON)).
#[local] Set Elimination Schemes.

(** [d[key] = value] on a dictionary kept in insertion order. *)
Fixpoint dict_set (key : string) (value : JSON) (d : list (string * JSON))
  : list (string * JSON) :=
  match d with
  | [] => [(key, value)]
  | (k, v) :: r =>
      if String.eqb k key then (k, value) :: r else (k, v) :: dict_set key value r
  end.

(** The part of [story_json] that lines 93 to 128 build. *)
Record Story := {
  story_title : option JSON;
  story_metadata : list (string * JSON)
}.

Inductive StoryError :=
| UnboundLocalError (name : string)
| TypeError.

Inductive StoryOutcome :=
| StoryOk (story : Story)
| StoryExit (code : Z)
| StoryRaises (e : StoryError).

(** [a + b] where [a] is a [str]: a [TypeError] unless [b] is one too. *)
Definition str_add (a : string) (b : JSON) : StoryError + string :=
  match b with
  | JString s => inr (a +:+ s)
  | _ => inl TypeError
  end.

(** Lines 93 to 128 of [raintale_story]: [title] is [args.title], and
    [collection_metadata] the dictionary loaded from
    [args.collection_metadata_filename], [None] when no file name is given, in
    which case the variable [jdata] is never assigned. *)
Definition raintale_story_title (title : option string)
  (collection_metadata : option (list (string * JSON))) : StoryOutcome :=
  let story_json := {| story_title := None; story_metadata := [] |} in
  let story_json :=
    match collection_metadata with
    | Some jdata =>
        let story_json :=
          match assoc "name" jdata with
          | Some name => {| story_title := Some name;
                            story_metadata := story_metadata story_json |}
          | None => story_json
          end in
        fold_left
          (fun st kv =>
             if negb (String.eqb (fst kv) "seed_metadata")
             then {| story_title := story_title st;
                     story_metadata := dict_set (fst kv) (snd kv) (story_metadata st) |}
             else st)
          jdata story_json
    | None => story_json
    end in
  match title with
  | None =>
      match collection_metadata with
      | None => StoryExit 255
      | Some _ => StoryOk story_json
      end
  | Some t =>
      let with_title (v : string) :=
        {| story_title := Some (JString v);
           story_metadata := story_metadata story_json |} in
      if String.eqb t "Archive-It Collection" then
        match collection_metadata with
        | None => StoryRaises (UnboundLocalError "jdata")
        | Some jdata =>
            match
              match assoc "id" jdata with
              | Some id => str_add (t +:+ " ") id
              | None => inr t
              end
            with
            | inl e => StoryRaises e
            | inr t1 =>
                match assoc "name" jdata with
                | Some name =>
                    match str_add (t1 +:+ ": ") name with
                    | inl e => StoryRaises e
                    | inr t2 => StoryOk (with_title t2)
                    end
                | None => StoryOk (with_title t1)
                end
            end
        end
      else StoryOk (with_title t)
  end.

(** ** The top terms of [raintale_story] *)

Section SortedDescending.

Context {A : Type} (cmp : A -> A -> comparison).

(** [sorted(l, reverse=True)] for any ordering: a stable insertion into
    descending order. *)
Fixpoint insert_descending (x : A) (l : list A) : list A :=
  match l with
  | [] => [x]
  | y :: r =>
      match cmp y x with
      | Gt => y :: insert_descending x r
      | _ => x :: y :: r
      end
  end.

Definition sorted_descending (l : list A) : list A :=
  foldr insert_descending [] l.

End SortedDescending.

(** The order of [(int, str)] tuples. *)
Definition term_compare (p q : Z * string) : comparison :=
  lex (fst p ?= fst q)%Z (str_compare (snd p) (snd q)).

(** [l[0:n]]: a negative [n] counts from the end. *)
Definition slice_to {A} (n : Z) (l : list A) : list A :=
  if (n <? 0)%Z then firstn (length l - Z.to_nat (- n)) l
  else firstn (Z.to_nat n) l.

(** Lines 143 to 147: the terms of the [term_count] greatest
    [(frequency, term)] tuples. *)
Definition top_terms (tf : list (Z * string)) (term_count : Z) : list string :=
  map snd (slice_to term_count (sorted_descending term_compare tf)).

(** ** Example collections *)

Definition memento_headers (v : string) : gmap string string :=
  {[ "memento-datetime" := v ]}.

Definition page (code : Z) (hs : gmap string string) (body : string) : Response :=
  {| status_code := code; headers := hs; text := body |}.

(** A small archive: two mementos with capture times, a 404 page without
    memento headers, and a host that cannot be reached. *)
Definition archive_get (uri : URI) : FetchResult :=
  if String.eqb uri "uriA" then
    Fetched (page 200 (memento_headers "Wed, 01 Jan 2020 00:00:00 GMT") "<p>a</p>")
  else if String.eqb uri "uriB" then
    Fetched (page 200 (memento_headers "Tue, 01 Jun 2021 00:00:00 GMT") "<p>a</p>")
  else if String.eqb uri "raw:uriA" then Fetched (page 200 ∅ "<p>a</p>")
  else if String.eqb uri "raw:uriB" then Fetched (page 200 ∅ "<p>a</p>")
  else if String.eqb uri "gone" then Fetched (page 404 ∅ "not found")
  else if String.eqb uri "raw:gone" then Fetched (page 404 ∅ "not found")
  else if String.eqb uri "urit" then Fetched (page 200 ∅ "<uriA>; rel=memento")
  else FetchRaises (ConnectionError "ConnectionError('unreachable')").

Definition archive_raw_urim (uri : URI) : URI := "raw:" +:+ uri.

Definition archive_justext (content : string) : JustextResult :=
  if String.eqb content "" then ParserError "ParserError('Document is empty')"
  else Paragraphs [content].

Definition archive_Simhash (content : string) : N := N.of_nat (String.length content).

Definition archive_convert (body : string) : option (list URI) :=
  if String.eqb body "" then None else Some ["uriA"].

Definition archive_strptime (v : string) : option datetime :=
  if String.eqb v "Wed, 01 Jan 2020 00:00:00 GMT" then
    Some {| year := 2020; month := 1; day := 1; hour := 0; minute := 0; second := 0 |}
  else if String.eqb v "Tue, 01 Jun 2021 00:00:00 GMT" then
    Some {| year := 2021; month := 6; day := 1; hour := 0; minute := 0; second := 0 |}
  else None.

(** The model after fingerprinting the two mementos of the archive: they
    share the fingerprint ["8"]. *)
Definition fingerprinted : Model :=
  after (getRawSimhash archive_get archive_raw_urim archive_Simhash "uriB")
    (after (getRawSimhash archive_get archive_raw_urim archive_Simhash "uriA") init).

(** A batch of ten URI-Ms: the responses of the first three carry no
    capture time, those of the other seven do. *)
Definition batch_urims : list URI :=
  ["m0"; "m1"; "m2"; "m3"; "m4"; "m5"; "m6"; "m7"; "m8"; "m9"].

Definition batch_get (uri : URI) : FetchResult :=
  if String.eqb uri "m0" || String.eqb uri "m1" || String.eqb uri "m2"
  then Fetched (page 200 ∅ "not a memento")
  else Fetched (page 200 (memento_headers "Wed, 01 Jan 2020 00:00:00 GMT") "<p>a</p>").

(** A registry of two measures over the one memento of one TimeMap: each
    function records the score of its measure. *)
Definition set_score (urit urim : URI) (measure : string) (score : Q)
  (mm : MeasureModel) : MeasureModel :=
  let m := default {| comparison_score := []; topic_status := [];
                      overall_topic_status := None |} (measures mm !! urim) in
  {| scoremodel := [(urit, [urim])];
     measures :=
       <[urim := {| comparison_score := (measure, score) :: comparison_score m;
                    topic_status := topic_status m;
                    overall_topic_status := overall_topic_status m |}]>
         (measures mm) |}.

Definition two_measures (measure : string) : option MeasureEntry :=
  if String.eqb measure "m1" then
    Some {| function := fun mm _ => ret (set_score "urit" "uriA" "m1" (6 # 10) mm);
            comparison_direction := GE;
            default_number_of_topics := None |}
  else if String.eqb measure "m2" then
    Some {| function := fun mm _ => ret (set_score "urit" "uriA" "m2" (5 # 10) mm);
            comparison_direction := LE;
            default_number_of_topics := None |}
  else None.

Definition two_thresholds : list (string * Q) := [("m1", 5 # 10); ("m2", 3 # 10)].

(** A session whose every fetch times out, and one whose every page is
    empty. *)
Definition timeout_get (uri : URI) : FetchResult :=
  FetchRaises (OtherRequestException "ReadTimeout('timed out')").

Definition blank_get (uri : URI) : FetchResult := Fetched (page 200 ∅ "").

(** A collection metadata file, and the rows of a term report. *)
Definition collection_metadata_694 : list (string * JSON) :=
  [("id", JNumber 694); ("name", JString "April 16 Archive");
   ("seed_metadata", JObject []); ("collected_by", JString "Virginia Tech")].

Definition term_rows : list (Z * string) :=
  [(3, "memorial")%Z; (7, "campus")%Z; (7, "students")%Z; (1, "vigil")%Z].

(** * Properties *)

Ltac unfold_M :=
  unfold after, bind, ret, raise, modify, gets, try_except in *.

Ltac break_match :=
  match goal with
  | |- context [match ?x with _ => _ end] =>
      lazymatch x with
      | context [match _ with _ => _ end] => fail
      | _ => destruct x eqn:?; cbv beta iota
      end
  end.

Ltac unfold_methods :=
  unfold exec, after, addTimeMap, getTimeMap, addMemento, addMementoError,
    getMementoContentWithoutBoilerplate, getRawSimhash, getMementoHeaders,
    getMementoContent, getMementoErrorInformation,
    getMementoURIList, getTimeMapURIList, call_justext, call_Simhash, get;
  unfold_M.

(** ** Lookups in a collection *)

Lemma find_one_app {D} (key : D -> URI) (u : URI) (l l' : list D) :
  find_one key u (l ++ l') =
  match find_one key u l with
  | Some d => Some d
  | None => find_one key u l'
  end.
Proof.
  unfold find_one. induction l as [|d l IH]; simpl; [reflexivity|].
  destruct (String.eqb (key d) u); [reflexivity | exact IH].
Qed.

Lemma find_one_Some {D} (key : D -> URI) (u : URI) (l : list D) (d : D) :
  find_one key u l = Some d -> d ∈ l /\ key d = u.
Proof.
  unfold find_one. intros H. apply List.find_some in H as [Hin Heq].
  split; [by apply list_elem_of_In | by apply String.eqb_eq].
Qed.

Lemma find_one_None {D} (key : D -> URI) (u : URI) (l : list D) :
  find_one key u l = None <-> (forall d, d ∈ l -> key d <> u).
Proof.
  unfold find_one. split.
  - intros H d Hin Heq. apply list_elem_of_In in Hin.
    pose proof (List.find_none _ _ H d Hin) as Hf. simpl in Hf.
    apply String.eqb_neq in Hf. contradiction.
  - intros H. induction l as [|d l IH]; simpl; [reflexivity|].
    destruct (String.eqb (key d) u) eqn:E.
    + apply String.eqb_eq in E. exfalso. apply (H d); [left | exact E].
    + apply IH. intros d' Hd'. apply H. by right.
Qed.

Lemma find_one_is_Some {D} (key : D -> URI) (u : URI) (l : list D) (d : D) :
  d ∈ l -> key d = u -> exists d', find_one key u l = Some d'.
Proof.
  intros Hin Hk. destruct (find_one key u l) as [d'|] eqn:E; [eauto|].
  exfalso. exact (proj1 (find_one_None key u l) E d Hin Hk).
Qed.

(** ** The ordering of [(datetime, URI-M)] tuples *)


Lemma cmp_eq_r {A} (cmp : A -> A -> comparison) (x y z : A) :
  Comparison cmp -> cmp y z = Eq -> cmp x z = cmp x y.
Proof.
  intros C H.
  assert (Hzy : cmp z y = Eq) by (rewrite (cmp_antisym _ C y z), H; reflexivity).
  rewrite (cmp_antisym _ C z x), (cmp_antisym _ C y x).
  f_equal. by apply (cmp_eq_l _ C).
Qed.

Lemma Comparison_of_spec {A} (cmp : A -> A -> comparison) (lt : A -> A -> Prop) :
  StrictOrder lt ->
  (forall x y, CompSpec eq lt x y (cmp x y)) ->
  Comparison cmp /\ (forall x y, cmp x y = Eq -> x = y).
Proof.
  intros [Hirr Htr] Hspec.
  assert (Hlt : forall x y, cmp x y = Lt <-> lt x y).
  { intros x y. destruct (Hspec x y) as [->|H|H]; split; try done.
    - intros H. by apply Hirr in H.
    - intros H'. exfalso. exact (Hirr _ (Htr _ _ _ H H')). }
  assert (Heq : forall x y, cmp x y = Eq <-> x = y).
  { intros x y. destruct (Hspec x y) as [->|H|H]; split; try done.
    - intros ->. by apply Hirr in H.
    - intros ->. by apply Hirr in H. }
  assert (Hgt : forall x y, cmp x y = Gt <-> lt y x).
  { intros x y. destruct (Hspec x y) as [->|H|H]; split; try done.
    - intros H. by apply Hirr in H.
    - intros H'. exfalso. exact (Hirr _ (Htr _ _ _ H H')). }
  split; [|intros x y; apply Heq].
  split.
  - intros x. by apply Heq.
  - intros x y. destruct (cmp x y) eqn:E; simpl.
    + apply Heq. apply Heq in E. done.
    + apply Hgt. by apply Hlt.
    + apply Hlt. by apply Hgt.
  - intros [] x y z H1 H2.
    + apply Heq in H1, H2. apply Heq. congruence.
    + apply Hlt in H1, H2. apply Hlt. by eapply Htr.
    + apply Hgt in H1, H2. apply Hgt. by eapply Htr.
  - intros x y z ->%Heq. reflexivity.
Qed.

Lemma Comparison_on {A B} (f : A -> B) (cmp : B -> B -> comparison) :
  Comparison cmp -> Comparison (fun x y => cmp (f x) (f y)).
Proof.
  intros C. split.
  - intros x. apply (cmp_refl _ C).
  - intros x y. apply (cmp_antisym _ C).
  - intros c x y z. apply (cmp_trans _ C).
  - intros x y z. apply (cmp_eq_l _ C).
Qed.

Lemma Comparison_lex {A} (c1 c2 : A -> A -> comparison) :
  Comparison c1 -> Comparison c2 ->
  Comparison (fun x y => lex (c1 x y) (c2 x y)).
Proof.
  intros C1 C2. split.
  - intros x. by rewrite (cmp_refl _ C1), (cmp_refl _ C2).
  - intros x y. rewrite (cmp_antisym _ C1 x y), (cmp_antisym _ C2 x y).
    by destruct (c1 x y), (c2 x y).
  - intros c x y z. unfold lex.
    destruct (c1 x y) eqn:E1.
    + rewrite (cmp_eq_l _ C1 x y z E1).
      destruct (c1 y z); intros H1 H2; try congruence.
      by apply (cmp_trans _ C2 c x y z).
    + destruct (c1 y z) eqn:E2; intros <- H2.
      * by rewrite (cmp_eq_r c1 x y z C1 E2), E1.
      * by rewrite (cmp_trans _ C1 Lt x y z E1 E2).
      * discriminate.
    + destruct (c1 y z) eqn:E2; intros <- H2.
      * by rewrite (cmp_eq_r c1 x y z C1 E2), E1.
      * discriminate.
      * by rewrite (cmp_trans _ C1 Gt x y z E1 E2).
  - intros x y z. unfold lex. destruct (c1 x y) eqn:E1; try discriminate.
    intros E2. rewrite (cmp_eq_l _ C1 x y z E1), (cmp_eq_l _ C2 x y z E2).
    reflexivity.
Qed.

Lemma lex_Eq (c1 c2 : comparison) : lex c1 c2 = Eq -> c1 = Eq /\ c2 = Eq.
Proof. destruct c1; simpl; intros H; try discriminate. by split. Qed.

Lemma Nat_compare_Comparison : Comparison Nat.compare.
Proof.
  apply (Comparison_of_spec Nat.compare Nat.lt).
  - apply Nat.lt_strorder.
  - apply Nat.compare_spec.
Qed.

Lemma str_compare_Comparison : Comparison str_compare.
Proof.
  apply (Comparison_of_spec str_compare String_as_OT.lt).
  - apply String_as_OT.lt_strorder.
  - apply String_as_OT.compare_spec.
Qed.

Lemma str_compare_Eq (a b : string) : str_compare a b = Eq -> a = b.
Proof.
  apply (Comparison_of_spec str_compare String_as_OT.lt).
  - apply String_as_OT.lt_strorder.
  - apply String_as_OT.compare_spec.
Qed.

Lemma datetime_compare_Comparison : Comparison datetime_compare.
Proof.
  unfold datetime_compare.
  repeat (apply Comparison_lex;
          [apply (Comparison_on _ Nat.compare), Nat_compare_Comparison|]).
  apply (Comparison_on second Nat.compare), Nat_compare_Comparison.
Qed.

Lemma datetime_compare_Eq (a b : datetime) : datetime_compare a b = Eq -> a = b.
Proof.
  unfold datetime_compare. intros H.
  repeat match goal with
         | H : lex _ _ = Eq |- _ => apply lex_Eq in H as [?%Nat.compare_eq ?]
         end.
  match goal with H : (_ ?= _)%nat = Eq |- _ => apply Nat.compare_eq in H end.
  destruct a, b; simpl in *; congruence.
Qed.

Lemma tuple_compare_Comparison : Comparison tuple_compare.
Proof.
  unfold tuple_compare. apply Comparison_lex.
  - apply (Comparison_on fst datetime_compare), datetime_compare_Comparison.
  - apply (Comparison_on snd str_compare), str_compare_Comparison.
Qed.


Lemma tuple_le_refl (p : datetime * URI) : tuple_le p p.
Proof.
  unfold tuple_le. by rewrite (cmp_refl _ tuple_compare_Comparison).
Qed.

Lemma tuple_le_trans (p q r : datetime * URI) :
  tuple_le p q -> tuple_le q r -> tuple_le p r.
Proof.
  unfold tuple_le. intros H1 H2.
  pose proof tuple_compare_Comparison as C.
  destruct (tuple_compare p q) eqn:E1; [| |done].
  - by rewrite (cmp_eq_l _ C p q r E1).
  - destruct (tuple_compare q r) eqn:E2; [| |done].
    + by rewrite (cmp_eq_r _ p q r C E2), E1.
    + by rewrite (cmp_trans _ C Lt p q r E1 E2).
Qed.

Lemma tuple_gtb_le (p q : datetime * URI) : tuple_gtb p q = true -> tuple_le q p.
Proof.
  unfold tuple_gtb, tuple_le.
  rewrite (cmp_antisym _ tuple_compare_Comparison p q).
  by destruct (tuple_compare p q).
Qed.

Lemma tuple_not_gtb_le (p q : datetime * URI) : tuple_gtb p q = false -> tuple_le p q.
Proof. unfold tuple_gtb, tuple_le. by destruct (tuple_compare p q). Qed.

(** The first element of the sorted list is one of the list, and no element
    is greater. *)
Lemma insert_reverse_elem (x y : datetime * URI) (l : list (datetime * URI)) :
  y ∈ insert_reverse x l <-> y = x \/ y ∈ l.
Proof.
  induction l as [|z l IH]; simpl.
  - rewrite list_elem_of_singleton. split; [by left | intros [H|H]; [done | by inversion H]].
  - destruct (tuple_gtb z x).
    + rewrite !elem_of_cons, IH. tauto.
    + rewrite !elem_of_cons. tauto.
Qed.

Lemma sorted_reverse_elem (y : datetime * URI) (l : list (datetime * URI)) :
  y ∈ sorted_reverse l <-> y ∈ l.
Proof.
  unfold sorted_reverse. induction l as [|x l IH]; simpl; [done|].
  rewrite insert_reverse_elem, IH, elem_of_cons. tauto.
Qed.

Lemma insert_reverse_first (x : datetime * URI) (l : list (datetime * URI)) :
  (forall first rest, l = first :: rest -> forall y, y ∈ l -> tuple_le y first) ->
  exists first rest,
    insert_reverse x l = first :: rest /\
    forall y, y ∈ insert_reverse x l -> tuple_le y first.
Proof.
  intros Hl. destruct l as [|z l]; simpl.
  - exists x, []. split; [reflexivity|].
    intros y ->%list_elem_of_singleton. apply tuple_le_refl.
  - specialize (Hl z l eq_refl). destruct (tuple_gtb z x) eqn:E.
    + eexists z, _. split; [reflexivity|].
      intros y [->|Hy]%elem_of_cons; [apply tuple_le_refl|].
      apply insert_reverse_elem in Hy as [->|Hy].
      * by apply tuple_gtb_le.
      * apply Hl. by right.
    + eexists x, _. split; [reflexivity|].
      intros y [->|Hy]%elem_of_cons; [apply tuple_le_refl|].
      eapply tuple_le_trans; [by apply Hl | by apply tuple_not_gtb_le].
Qed.

Lemma sorted_reverse_first (l : list (datetime * URI)) :
  forall first rest, sorted_reverse l = first :: rest ->
    forall y, y ∈ sorted_reverse l -> tuple_le y first.
Proof.
  unfold sorted_reverse. induction l as [|x l IH]; simpl; [discriminate|].
  intros first rest Heq y Hy.
  destruct (insert_reverse_first x (foldr insert_reverse [] l) IH)
    as (f & r & Hf & Hmax).
  rewrite Hf in Heq. injection Heq as -> ->. by apply Hmax.
Qed.

Lemma sorted_reverse_nonempty (x : datetime * URI) (l : list (datetime * URI)) :
  sorted_reverse (x :: l) <> [].
Proof.
  intros H. assert (Hx : x ∈ sorted_reverse (x :: l)).
  { apply sorted_reverse_elem. by left. }
  rewrite H in Hx. by inversion Hx.
Qed.

Section CollectionModelFacts.

Variable session_get : URI -> FetchResult.
Variable generate_raw_urim : URI -> URI.
Variable justext : string -> JustextResult.
Variable Simhash : string -> N.
Variable TimeMapDict : Type.
Variable convert_LinkTimeMap_to_dict : string -> option TimeMapDict.
Variable strptime : string -> option datetime.

(** *** Registration *)

(** C10: when the session returns a response for the URI-M and for its raw
    counterpart, whatever the status code, the headers and the body of
    either, [addMemento] returns, the URI-M is appended to the registered list
    and no Error Record is written. *)
Theorem addMemento_registers_any_response (urim : URI) (r r' : Response) (s : Model) :
  session_get urim = Fetched r ->
  session_get (generate_raw_urim urim) = Fetched r' ->
  fst (addMemento session_get generate_raw_urim urim s) = Ok tt /\
  urimlist (after (addMemento session_get generate_raw_urim urim) s)
    = urimlist s ++ [urim] /\
  error_collection (after (addMemento session_get generate_raw_urim urim) s)
    = error_collection s.
Proof.
  intros Hm Hraw. unfold addMemento, get. unfold_M. rewrite Hm, Hraw. simpl.
  repeat split.
Qed.

(** Only [ConnectionError] and [TooManyRedirects] are turned into an Error
    Record; the URI-M is then not registered. *)
Lemma addMemento_records_connection_error (urim : URI) (e : RequestException) (s : Model) :
  session_get urim = FetchRaises e ->
  (exists msg, e = ConnectionError msg \/ e = TooManyRedirects msg) ->
  addMemento session_get generate_raw_urim urim s
    = (Ok tt, record_error urim (ErrBytes (repr e)) (log_call (CallGet urim) s)).
Proof.
  intros Hm [msg [-> | ->]]; unfold addMemento, get; unfold_M; rewrite Hm; reflexivity.
Qed.

(** Any other exception of the session leaves [addMemento]. *)
Lemma addMemento_lets_other_exceptions_through (urim : URI) (msg : string) (s : Model) :
  session_get urim = FetchRaises (OtherRequestException msg) ->
  addMemento session_get generate_raw_urim urim s
    = (Raise (RequestExn (OtherRequestException msg)), log_call (CallGet urim) s).
Proof.
  intros Hm. unfold addMemento, get. unfold_M. rewrite Hm. reflexivity.
Qed.

(** *** Content access *)

(** C4: [getMementoContent] consults neither the list of registered URI-Ms
    nor the Error Store: in every model, registered or not, with an Error
    Record or without, it returns the body the session has for the raw
    URI-M. *)
Theorem getMementoContent_checks_nothing (urim : URI) (r : Response) (s : Model) :
  session_get (generate_raw_urim urim) = Fetched r ->
  getMementoContent session_get generate_raw_urim urim s
    = (Ok (text r), log_call (CallGet (generate_raw_urim urim)) s).
Proof.
  intros Hraw. unfold getMementoContent, get. unfold_M. rewrite Hraw. reflexivity.
Qed.

(** C8, as the code has it: [getTimeMap] does not consult the list of
    registered URI-Ts; whenever the session has a response for the URI-T whose
    body parses, it returns the parsed mapping, in every model. *)
Theorem getTimeMap_parses_session_body (urit : URI) (r : Response)
  (d : TimeMapDict) (s : Model) :
  session_get urit = Fetched r ->
  convert_LinkTimeMap_to_dict (text r) = Some d ->
  getTimeMap session_get TimeMapDict convert_LinkTimeMap_to_dict urit s
    = (Ok d, log_call (CallGet urit) s).
Proof.
  intros Hget Hconv. unfold getTimeMap, get. unfold_M. rewrite Hget, Hconv. reflexivity.
Qed.

(** *** The Error Store *)

Lemma getMementoErrorInformation_spec (urim : URI) (s : Model) :
  getMementoErrorInformation urim s
    = (Ok (error_information <$> find_one err_urim urim (error_collection s)), s).
Proof.
  unfold getMementoErrorInformation. unfold_M.
  destruct (find_one err_urim urim (error_collection s)); simpl; [reflexivity|].
  destruct (bool_decide (urim ∈ urimlist s)); reflexivity.
Qed.

(** C5: for a URI-M with an Error Record, [getMementoContentWithoutBoilerplate]
    and [getRawSimhash] raise [CollectionModelMementoErrorException] and leave
    the model as it was, the log of collaborator calls included: nothing is
    fetched, extracted or fingerprinted. *)
Theorem error_record_gates_derived_values (urim : URI) (d : ErrorDoc) (s : Model) :
  d ∈ error_collection s ->
  err_urim d = urim ->
  getMementoContentWithoutBoilerplate session_get generate_raw_urim justext urim s
    = (Raise (CollectionModelMementoErrorException
                ("Errors were recorded for URI-M " +:+ urim)), s) /\
  getRawSimhash session_get generate_raw_urim Simhash urim s
    = (Raise (CollectionModelMementoErrorException
                ("Errors were recorded for URI-M " +:+ urim)), s).
Proof.
  intros Hin Hu.
  destruct (find_one_is_Some err_urim urim _ d Hin Hu) as [d' Hd'].
  unfold getMementoContentWithoutBoilerplate, getRawSimhash, bind.
  rewrite !getMementoErrorInformation_spec, Hd'. simpl. split; reflexivity.
Qed.

(** *** The polling loop of the batch ingestion *)

Lemma choice_elem (k : nat) (w : list URI) : w <> [] -> choice k w ∈ w.
Proof.
  intros Hw. unfold choice. apply list_elem_of_In, nth_In.
  apply Nat.mod_upper_bound. destruct w; [congruence | simpl; lia].
Qed.

Lemma choice_singleton (k : nat) (u : URI) : choice k [u] = u.
Proof. unfold choice. cbn [length]. rewrite Nat.mod_1_r. reflexivity. Qed.

Lemma list_remove_elem (x u : URI) (w : list URI) :
  x ∈ list_remove u w -> x ∈ w.
Proof.
  induction w as [|y w IH]; simpl; [done|].
  destruct (String.eqb y u); [by right|].
  intros [->|H]%elem_of_cons; [by left | right; auto].
Qed.

Lemma list_remove_other (x u : URI) (w : list URI) :
  x ∈ w -> x <> u -> x ∈ list_remove u w.
Proof.
  intros Hin Hne. induction w as [|y w IH]; simpl; [by inversion Hin|].
  destruct (String.eqb y u) eqn:E.
  - apply String.eqb_eq in E. subst y.
    apply elem_of_cons in Hin as [->|Hin]; [contradiction | exact Hin].
  - apply elem_of_cons in Hin as [->|Hin]; [by left | right; auto].
Qed.

Lemma list_remove_length (u : URI) (w : list URI) :
  u ∈ w -> S (length (list_remove u w)) = length w.
Proof.
  induction w as [|y w IH]; simpl; [by inversion 1|].
  destruct (String.eqb y u) eqn:E; [reflexivity|].
  intros [->|H]%elem_of_cons.
  - rewrite String.eqb_refl in E. discriminate.
  - simpl. by rewrite IH.
Qed.

Lemma list_remove_NoDup (u : URI) (w : list URI) :
  NoDup w -> NoDup (list_remove u w) /\ u ∉ list_remove u w.
Proof.
  induction w as [|y w IH]; simpl; intros Hnd.
  - split; [constructor | by inversion 1].
  - apply NoDup_cons in Hnd as [Hy Hnd].
    destruct (String.eqb y u) eqn:E.
    + apply String.eqb_eq in E. subst y. by split.
    + apply String.eqb_neq in E. destruct (IH Hnd) as [IH1 IH2]. split.
      * apply NoDup_cons. split; [|exact IH1].
        intros H. apply Hy. by eapply list_remove_elem.
      * intros [->|H]%elem_of_cons; [congruence | contradiction].
Qed.

Lemma list_remove_count (P : URI -> bool) (u : URI) (w : list URI) :
  u ∈ w ->
  length (List.filter P w)
    = (length (List.filter P (list_remove u w)) + if P u then 1 else 0)%nat.
Proof.
  induction w as [|y w IH]; simpl; [by inversion 1|].
  destruct (String.eqb y u) eqn:E.
  - apply String.eqb_eq in E. subst y. intros _.
    destruct (P u); simpl; lia.
  - intros [->|H]%elem_of_cons.
    + rewrite String.eqb_refl in E. discriminate.
    + simpl. destruct (P y); simpl; rewrite (IH H); lia.
Qed.

(** The loop writes to the Error Store only, and only for URIs that are
    pending; the registered lists, the derived values and the log of calls
    stay as they are. *)
Lemma poll_frame (draw : nat -> nat) (fuel : nat) :
  forall t w futures s,
    let s' := run_state (poll draw fuel t w futures s) in
    bpfree_collection s' = bpfree_collection s /\
    derived_collection s' = derived_collection s /\
    urimlist s' = urimlist s /\
    uritlist s' = uritlist s /\
    calls s' = calls s /\
    exists l, error_collection s' = error_collection s ++ l /\
              forall d, d ∈ l -> err_urim d ∈ w.
Proof.
  induction fuel as [|fuel IH]; intros t w futures s; simpl.
  - destruct w; simpl; repeat split; exists []; rewrite app_nil_r;
      (split; [reflexivity | by inversion 1]).
  - destruct w as [|x w']; simpl.
    { repeat split. exists []. rewrite app_nil_r. split; [reflexivity | by inversion 1]. }
    set (w := x :: w'). set (uri := choice (draw t) w).
    assert (Huri : uri ∈ w) by (apply choice_elem; discriminate).
    destruct (futures !! uri) as [f|]; simpl.
    2:{ repeat split. exists []. rewrite app_nil_r. split; [reflexivity | by inversion 1]. }
    destruct (ready_at f <=? t)%nat.
    2:{ apply IH. }
    destruct (outcome f) as [r|e].
    + destruct (headers r !! "memento-datetime").
      * destruct (IH (S t) (list_remove uri w) (delete uri futures) s)
          as (H1 & H2 & H3 & H4 & H5 & l & H6 & H7).
        repeat split; try assumption. exists l. split; [exact H6|].
        intros d Hd. eapply list_remove_elem, H7, Hd.
      * match goal with |- context [poll _ _ _ _ _ ?s1] =>
          destruct (IH (S t) (list_remove uri w) (delete uri futures) s1)
            as (H1 & H2 & H3 & H4 & H5 & l & H6 & H7) end.
        repeat split; try assumption. simpl in H6.
        eexists (_ :: l). split.
        { rewrite H6, <- app_assoc. reflexivity. }
        intros d [->|Hd]%elem_of_cons; [exact Huri|].
        eapply list_remove_elem, H7, Hd.
    + match goal with |- context [poll _ _ _ _ _ ?s1] =>
        destruct (IH (S t) w futures s1)
          as (H1 & H2 & H3 & H4 & H5 & l & H6 & H7) end.
      repeat split; try assumption. simpl in H6.
      eexists (_ :: l). split.
      { rewrite H6, <- app_assoc. reflexivity. }
      intros d [->|Hd]%elem_of_cons; [exact Huri | by apply H7].
Qed.

Lemma lookup_two_inserts {V} (m : gmap URI V) (k1 k2 u : URI) (a b : V) :
  (<[k1 := a]> (<[k2 := b]> m)) !! u
  = if decide (k1 = u) then Some a else if decide (k2 = u) then Some b else m !! u.
Proof.
  destruct (decide (k1 = u)) as [->|H1].
  - apply lookup_insert_eq.
  - rewrite lookup_insert_ne by done.
    destruct (decide (k2 = u)) as [->|H2].
    + apply lookup_insert_eq.
    + by rewrite lookup_insert_ne.
Qed.

Lemma submit_all_spec (latency : URI -> nat) (urims : list URI) :
  forall w0 futures0 s,
    (forall u f, futures0 !! u = Some f -> f = submit session_get latency u) ->
    (forall u, u ∈ w0 -> is_Some (futures0 !! u)) ->
    exists futures s',
      submit_all session_get generate_raw_urim latency urims w0 futures0 s
        = (w0 ++ urims, futures, s') /\
      (forall u, u ∈ w0 ++ urims ->
                 futures !! u = Some (submit session_get latency u)) /\
      error_collection s' = error_collection s /\
      bpfree_collection s' = bpfree_collection s /\
      derived_collection s' = derived_collection s /\
      urimlist s' = urimlist s /\
      uritlist s' = uritlist s.
Proof.
  induction urims as [|uri rest IH]; intros w0 futures0 s Hall Hw; simpl.
  - exists futures0, s. rewrite app_nil_r. repeat split.
    intros u Hu. destruct (Hw u Hu) as [f Hf]. rewrite Hf. f_equal. by apply Hall.
  - edestruct (IH (w0 ++ [uri])) as (futures & s' & Heq & Hlook & Hrest).
    + intros u f. rewrite lookup_two_inserts.
      repeat case_decide; subst; intros Hf; try (by inversion Hf). by apply Hall.
    + intros u [Hu | ->%list_elem_of_singleton]%elem_of_app.
      * rewrite lookup_two_inserts. repeat case_decide; eauto.
      * rewrite lookup_two_inserts. repeat case_decide; eauto; done.
    + exists futures, s'. rewrite Heq, <- app_assoc. simpl. split; [reflexivity|].
      split; [|exact Hrest].
      intros u Hu. apply Hlook. by rewrite <- app_assoc.
Qed.

(** A pending URI-M whose future raises stays pending: the loop does not
    come to its end. *)
Lemma poll_never_returns (draw : nat -> nat) (u : URI) (fu : Future)
  (e : RequestException) :
  outcome fu = FetchRaises e ->
  forall fuel t w futures s s',
    u ∈ w -> futures !! u = Some fu ->
    poll draw fuel t w futures s <> Finished (Ok tt) s'.
Proof.
  intros Hout. induction fuel as [|fuel IH]; intros t w futures s s' Hu Hfu.
  - destruct w; simpl; [by inversion Hu | discriminate].
  - destruct w as [|x w']; [by inversion Hu|]. cbn [poll].
    set (w := x :: w') in *. set (uri := choice (draw t) w).
    destruct (futures !! uri) as [f|] eqn:Hf; [|discriminate].
    destruct (ready_at f <=? t)%nat; [|by apply IH].
    destruct (outcome f) as [r|e'] eqn:Hof; [|by apply IH].
    assert (Hne : u <> uri) by (intros ->; congruence).
    apply IH.
    + by apply list_remove_other.
    + by rewrite lookup_delete_ne.
Qed.

(** With nothing else pending the loop spins: every poll after the future is
    done writes one more Error Record. *)
Lemma poll_spins (draw : nat -> nat) (u : URI) (fu : Future) (e : RequestException) :
  outcome fu = FetchRaises e ->
  forall fuel t futures s,
    futures !! u = Some fu ->
    exists s', poll draw fuel t [u] futures s = OutOfFuel s' /\
               length (error_collection s')
                 = (length (error_collection s) + (fuel - (ready_at fu - t)))%nat.
Proof.
  intros Hout. induction fuel as [|fuel IH]; intros t futures s Hfu; cbn [poll].
  - exists s. split; [reflexivity | lia].
  - rewrite choice_singleton, Hfu.
    destruct (ready_at fu <=? t)%nat eqn:Hready.
    + rewrite Hout. apply Nat.leb_le in Hready.
      destruct (IH (S t) futures (record_error u (ErrBytes (repr e)) s) Hfu)
        as (s' & -> & Hlen).
      exists s'. split; [reflexivity|]. rewrite Hlen. simpl.
      rewrite length_app. simpl. lia.
    + apply Nat.leb_gt in Hready.
      destruct (IH (S t) futures s Hfu) as (s' & -> & Hlen).
      exists s'. split; [reflexivity|]. rewrite Hlen. lia.
Qed.

(** When every pending future yields a response the loop ends within
    [T - t + length w] polls, whatever is drawn: one Error Record for each
    URI-M whose response lacks the capture-time header, and the list of
    registered URI-Ms as it was. *)
Lemma poll_terminates (latency : URI -> nat) (draw : nat -> nat) (T : nat) :
  forall fuel t w futures s,
    NoDup w ->
    (forall u, u ∈ w ->
       futures !! u = Some (submit session_get latency u) /\
       (exists r, session_get u = Fetched r) /\ (latency u <= T)%nat) ->
    (T - t + length w <= fuel)%nat ->
    exists s',
      poll draw fuel t w futures s = Finished (Ok tt) s' /\
      length (error_collection s')
        = (length (error_collection s)
           + length (List.filter (lacks_memento_datetime session_get) w))%nat /\
      urimlist s' = urimlist s.
Proof.
  induction fuel as [|fuel IH]; intros t w futures s Hnd Hw Hfuel.
  - destruct w; simpl in *; [|lia]. exists s. repeat split. lia.
  - destruct w as [|x w']; cbn [poll].
    { exists s. repeat split. simpl. lia. }
    set (w := x :: w') in *. set (uri := choice (draw t) w).
    assert (Huri : uri ∈ w) by (apply choice_elem; discriminate).
    destruct (Hw uri Huri) as (Hf & [r Hr] & HT). rewrite Hf.
    cbn [ready_at outcome submit].
    pose proof (list_remove_length uri w Huri) as Hlen.
    destruct (latency uri <=? t)%nat eqn:Hready.
    + rewrite Hr.
      destruct (list_remove_NoDup uri w Hnd) as [Hnd' Hnotin].
      assert (Hw' : forall u, u ∈ list_remove uri w ->
                (delete uri futures) !! u = Some (submit session_get latency u) /\
                (exists r, session_get u = Fetched r) /\ (latency u <= T)%nat).
      { intros u Hu. assert (u <> uri) by (intros ->; contradiction).
        rewrite lookup_delete_ne by done. apply Hw. by eapply list_remove_elem. }
      rewrite (list_remove_count (lacks_memento_datetime session_get) uri w Huri).
      unfold lacks_memento_datetime at 2. rewrite Hr.
      destruct (headers r !! "memento-datetime").
      * destruct (IH (S t) _ _ s Hnd' Hw') as (s' & -> & He & Hl); [lia|].
        exists s'. repeat split; [lia | exact Hl].
      * match goal with |- context [poll _ _ _ _ _ ?s1] =>
          destruct (IH (S t) _ _ s1 Hnd' Hw') as (s' & -> & He & Hl); [lia|] end.
        exists s'. repeat split; [|exact Hl].
        rewrite He. simpl. rewrite length_app. simpl. lia.
    + apply Nat.leb_gt in Hready.
      destruct (IH (S t) w futures s Hnd Hw) as (s' & -> & He & Hl); [lia|].
      exists s'. repeat split; assumption.
Qed.

(** *** Batch ingestion *)

Lemma max_latency_bound (latency : URI -> nat) (urims : list URI) (u : URI) :
  u ∈ urims -> (latency u <= max_latency latency urims)%nat.
Proof.
  unfold max_latency. induction urims as [|x l IH]; [by inversion 1|].
  intros [->|H]%elem_of_cons; simpl; [lia|]. specialize (IH H). lia.
Qed.

Lemma addManyMementos_unfold (latency : URI -> nat) (draw : nat -> nat)
  (fuel : nat) (urims : list URI) (s : Model) :
  exists futures s0,
    addManyMementos session_get generate_raw_urim latency draw fuel urims s
      = poll draw fuel 0 urims futures s0 /\
    (forall u, u ∈ urims -> futures !! u = Some (submit session_get latency u)) /\
    error_collection s0 = error_collection s /\
    bpfree_collection s0 = bpfree_collection s /\
    derived_collection s0 = derived_collection s /\
    urimlist s0 = urimlist s /\
    uritlist s0 = uritlist s.
Proof.
  destruct (submit_all_spec latency urims [] ∅ s) as (futures & s0 & Heq & Hlook & Hrest).
  - intros u f Hf. by rewrite lookup_empty in Hf.
  - intros u Hu. by inversion Hu.
  - exists futures, s0. unfold addManyMementos. rewrite Heq. simpl.
    split; [reflexivity|]. split; [exact Hlook | exact Hrest].
Qed.

(** C2, as the code has it: when the fetch of one URI-M of the batch settles
    with a request exception, [addManyMementos] does not return, whatever the
    latencies, the draws and the number of polls: after writing the Error
    Record the loop goes on without dropping the URI-M from the pending
    list. *)
Theorem addManyMementos_never_returns_on_request_exception
  (latency : URI -> nat) (draw : nat -> nat) (fuel : nat) (urims : list URI)
  (u : URI) (e : RequestException) (s : Model) :
  u ∈ urims ->
  session_get u = FetchRaises e ->
  returns (addManyMementos session_get generate_raw_urim latency draw fuel urims s)
    = false.
Proof.
  intros Hu He.
  destruct (addManyMementos_unfold latency draw fuel urims s)
    as (futures & s0 & -> & Hlook & _).
  pose proof (poll_never_returns draw u (submit session_get latency u) e He
                fuel 0 urims futures s0) as Hp.
  destruct (poll draw fuel 0 urims futures s0) as [[[]|e'] s'|s']; try reflexivity.
  exfalso. apply (Hp s'); [exact Hu | by apply Hlook | reflexivity].
Qed.

(** For a batch of that one URI-M the loop is still running after any number
    of polls, and has by then written an Error Record at every poll since the
    future was done. *)
Lemma addManyMementos_spins (latency : URI -> nat) (draw : nat -> nat)
  (fuel : nat) (u : URI) (e : RequestException) (s : Model) :
  session_get u = FetchRaises e ->
  exists s',
    addManyMementos session_get generate_raw_urim latency draw fuel [u] s
      = OutOfFuel s' /\
    length (error_collection s')
      = (length (error_collection s) + (fuel - latency u))%nat.
Proof.
  intros He.
  destruct (addManyMementos_unfold latency draw fuel [u] s)
    as (futures & s0 & -> & Hlook & Herr & _).
  destruct (poll_spins draw u (submit session_get latency u) e He fuel 0 futures s0)
    as (s' & Hp & Hlen).
  { apply Hlook. by left. }
  exists s'. split; [exact Hp|]. rewrite Hlen, Herr. simpl. f_equal. lia.
Qed.

(** When every fetch of a batch of distinct URI-Ms yields a response, the
    loop ends, whatever the latencies and the draws, with one Error Record
    for each response without the capture-time header; the list of registered
    URI-Ms is not touched. *)
Lemma addManyMementos_terminates (latency : URI -> nat) (draw : nat -> nat)
  (fuel : nat) (urims : list URI) (s : Model) :
  NoDup urims ->
  (forall u, u ∈ urims -> exists r, session_get u = Fetched r) ->
  (max_latency latency urims + length urims <= fuel)%nat ->
  exists s',
    addManyMementos session_get generate_raw_urim latency draw fuel urims s
      = Finished (Ok tt) s' /\
    length (error_collection s')
      = (length (error_collection s)
         + length (List.filter (lacks_memento_datetime session_get) urims))%nat /\
    urimlist s' = urimlist s.
Proof.
  intros Hnd Hall Hfuel.
  destruct (addManyMementos_unfold latency draw fuel urims s)
    as (futures & s0 & -> & Hlook & Herr & _ & _ & Hurim & _).
  destruct (poll_terminates latency draw (max_latency latency urims)
              fuel 0 urims futures s0 Hnd) as (s' & Hp & Hlen & Hl).
  - intros u Hu. split; [by apply Hlook|]. split; [by apply Hall|].
    by apply max_latency_bound.
  - lia.
  - exists s'. split; [exact Hp|]. rewrite Hlen, Herr, Hl, Hurim. split; reflexivity.
Qed.

(** *** What a method call may change *)


Lemma same_stores_refl (s : Model) : same_stores s s.
Proof. by repeat split. Qed.

Lemma same_stores_trans (s1 s2 s3 : Model) :
  same_stores s1 s2 -> same_stores s2 s3 -> same_stores s1 s3.
Proof.
  intros (A1 & A2 & A3 & A4 & A5) (B1 & B2 & B3 & B4 & B5).
  repeat split; congruence.
Qed.

Lemma get_same_stores (uri : URI) (s : Model) :
  same_stores s (snd (get session_get uri s)).
Proof. unfold get. destruct (session_get uri); by repeat split. Qed.

Lemma mapM_same_stores {A B} (f : A -> M B) (l : list A) :
  (forall x s, same_stores s (snd (f x s))) ->
  forall s, same_stores s (snd (mapM f l s)).
Proof.
  intros Hf. induction l as [|x l IH]; intros s; simpl; [apply same_stores_refl|].
  unfold bind. specialize (Hf x s). destruct (f x s) as [[y|e] s1]; simpl in *; [|exact Hf].
  specialize (IH s1). destruct (mapM f l s1) as [[ys|e] s2]; simpl in *;
    eapply same_stores_trans; eauto.
Qed.

Lemma getMementoHeaders_same_stores (urim : URI) (s : Model) :
  same_stores s (snd (getMementoHeaders session_get urim s)).
Proof.
  unfold getMementoHeaders, bind, ret. pose proof (get_same_stores urim s) as H.
  destruct (get session_get urim s) as [[r|e] s1]; exact H.
Qed.

Lemma getFirstURIMByRawSimhash_same_stores (h : string) (s : Model) :
  same_stores s (snd (getFirstURIMByRawSimhash session_get strptime h s)).
Proof.
  unfold getFirstURIMByRawSimhash. unfold bind at 1. unfold gets at 1.
  unfold bind at 1.
  match goal with |- context [mapM ?f ?l s] =>
    assert (Hf : forall x s0, same_stores s0 (snd (f x s0)));
    [| pose proof (mapM_same_stores f l Hf s) as H;
       destruct (mapM f l s) as [[ps|e] s1] ]
  end.
  - intros x s0. unfold matching_tuple, bind.
    pose proof (getMementoHeaders_same_stores x s0) as Hh.
    destruct (getMementoHeaders session_get x s0) as [[hs|e] s2]; [|exact Hh].
    destruct (hs !! "memento-datetime") as [v|]; [|exact Hh].
    destruct (strptime v); exact Hh.
  - destruct (sorted_reverse ps); exact H.
  - exact H.
Qed.

(** The Error Store only grows, and a call adds records only for the URI-Ms
    it ingests. *)
Lemma exec_error_collection (c : MethodCall) (s : Model) :
  exists l,
    error_collection
      (exec session_get generate_raw_urim justext Simhash TimeMapDict
         convert_LinkTimeMap_to_dict strptime c s)
      = error_collection s ++ l /\
    forall d, d ∈ l -> records_error_for (err_urim d) c.
Proof.
  assert (Hnil : forall s', error_collection s' = error_collection s ->
            exists l, error_collection s' = error_collection s ++ l /\
                      forall d, d ∈ l -> records_error_for (err_urim d) c).
  { intros s' ->. exists []. rewrite app_nil_r. split; [reflexivity | by inversion 1]. }
  destruct c.
  - unfold_methods. repeat break_match; cbn [fst snd]; by apply Hnil.
  - unfold_methods. repeat break_match; cbn [fst snd]; by apply Hnil.
  - unfold_methods. repeat break_match; cbn [fst snd]; try (by apply Hnil);
      (eexists [_]; split; [reflexivity|];
       intros d ->%list_elem_of_singleton; reflexivity).
  - cbn [exec].
    destruct (addManyMementos_unfold latency draw fuel urims s)
      as (futures & s0 & -> & _ & Herr & _).
    destruct (poll_frame draw fuel 0 urims futures s0) as (_ & _ & _ & _ & _ & l & Hl & Hd).
    exists l. rewrite Hl, Herr. split; [reflexivity | exact Hd].
  - unfold_methods. eexists [_]. split; [reflexivity|].
    intros d ->%list_elem_of_singleton. reflexivity.
  - unfold_methods. repeat break_match; cbn [fst snd]; by apply Hnil.
  - unfold_methods. repeat break_match; cbn [fst snd]; by apply Hnil.
  - unfold_methods. repeat break_match; cbn [fst snd]; by apply Hnil.
  - unfold_methods. repeat break_match; cbn [fst snd]; by apply Hnil.
  - apply Hnil. apply (getFirstURIMByRawSimhash_same_stores h s).
  - unfold_methods. repeat break_match; cbn [fst snd]; by apply Hnil.
  - by apply Hnil.
  - by apply Hnil.
Qed.

Lemma exec_all_error_collection (cs : list MethodCall) (s : Model) :
  exists l,
    error_collection
      (exec_all session_get generate_raw_urim justext Simhash TimeMapDict
         convert_LinkTimeMap_to_dict strptime cs s)
      = error_collection s ++ l /\
    forall d, d ∈ l -> exists c, c ∈ cs /\ records_error_for (err_urim d) c.
Proof.
  revert s. induction cs as [|c cs IH]; intros s; simpl.
  - exists []. rewrite app_nil_r. split; [reflexivity | by inversion 1].
  - destruct (exec_error_collection c s) as (l1 & H1 & Hd1).
    match goal with |- context [exec_all _ _ _ _ _ _ _ cs ?s1] =>
      destruct (IH s1) as (l2 & H2 & Hd2) end.
    exists (l1 ++ l2). rewrite H2, H1, app_assoc. split; [reflexivity|].
    intros d [Hd|Hd]%elem_of_app.
    + exists c. split; [by left | by apply Hd1].
    + destruct (Hd2 d Hd) as (c' & Hc' & Hr). exists c'. split; [by right | exact Hr].
Qed.

(** C9: in a model created with an empty Error Store, as long as no call has
    ingested [u] or recorded an error for it, [getMementoErrorInformation u]
    returns [None], whether or not [u] is registered; and once
    [addMementoError u x] has been called it returns a value other than
    [None], whatever calls follow, namely [x] itself when no Error Record
    existed for [u] before. *)
Theorem getMementoErrorInformation_None_until_recorded (u : URI) :
  (forall cs,
     Forall (fun c => ~ records_error_for u c) cs ->
     fst (getMementoErrorInformation u
            (exec_all session_get generate_raw_urim justext Simhash TimeMapDict
               convert_LinkTimeMap_to_dict strptime cs init)) = Ok None) /\
  (forall x s cs,
     exists info,
       fst (getMementoErrorInformation u
              (exec_all session_get generate_raw_urim justext Simhash TimeMapDict
                 convert_LinkTimeMap_to_dict strptime cs
                 (after (addMementoError u x) s))) = Ok (Some info) /\
       (find_one err_urim u (error_collection s) = None -> info = x)).
Proof.
  split.
  - intros cs Hcs. rewrite getMementoErrorInformation_spec. simpl.
    destruct (exec_all_error_collection cs init) as (l & -> & Hd). simpl.
    replace (find_one err_urim u l) with (@None ErrorDoc); [reflexivity|].
    symmetry. apply find_one_None. intros d Hin Hu.
    destruct (Hd d Hin) as (c & Hc & Hr). rewrite Hu in Hr.
    rewrite Forall_forall in Hcs. exact (Hcs c Hc Hr).
  - intros x s cs. rewrite getMementoErrorInformation_spec. simpl.
    destruct (exec_all_error_collection cs (after (addMementoError u x) s))
      as (l & -> & _).
    unfold after, addMementoError, modify, record_error. simpl.
    rewrite !find_one_app.
    destruct (find_one err_urim u (error_collection s)) as [d|] eqn:E; simpl.
    + exists (error_information d). split; [reflexivity | discriminate].
    + unfold find_one at 1. simpl. rewrite String.eqb_refl. simpl.
      exists x. split; reflexivity.
Qed.

(** *** Derived values *)

Lemma find_one_update_same (u : URI) (h : string) (coll : list DerivedDoc) (d : DerivedDoc) :
  find_one dv_urim u coll = Some d ->
  find_one dv_urim u (update_raw_simhash u h coll)
    = Some {| dv_urim := dv_urim d; raw_simhash := Some h |}.
Proof.
  unfold find_one. induction coll as [|d0 coll IH]; simpl; [discriminate|].
  destruct (String.eqb (dv_urim d0) u) eqn:E; simpl.
  - intros [= ->]. by rewrite E.
  - rewrite E. exact IH.
Qed.

Lemma find_one_update_other (u u' : URI) (h : string) (coll : list DerivedDoc) :
  u <> u' ->
  find_one dv_urim u (update_raw_simhash u' h coll) = find_one dv_urim u coll.
Proof.
  intros Hne. unfold find_one. induction coll as [|d0 coll IH]; simpl; [reflexivity|].
  destruct (String.eqb (dv_urim d0) u') eqn:E; simpl.
  - apply String.eqb_eq in E.
    assert (E' : String.eqb (dv_urim d0) u = false)
      by (apply String.eqb_neq; congruence).
    by rewrite E'.
  - destruct (String.eqb (dv_urim d0) u); [reflexivity | exact IH].
Qed.

Lemma find_one_singleton {D} (key : D -> URI) (u : URI) (d : D) :
  key d = u -> find_one key u [d] = Some d.
Proof. intros <-. unfold find_one. simpl. by rewrite String.eqb_refl. Qed.

(** The boilerplate store only grows. *)
Lemma exec_bpfree_collection (c : MethodCall) (s : Model) :
  exists l,
    bpfree_collection
      (exec session_get generate_raw_urim justext Simhash TimeMapDict
         convert_LinkTimeMap_to_dict strptime c s)
      = bpfree_collection s ++ l.
Proof.
  assert (Hnil : forall s', bpfree_collection s' = bpfree_collection s ->
            exists l, bpfree_collection s' = bpfree_collection s ++ l).
  { intros s' ->. exists []. by rewrite app_nil_r. }
  destruct c;
    try (unfold_methods; repeat break_match; cbn [fst snd];
         first [by apply Hnil | by eexists [_]]).
  - cbn [exec].
    destruct (addManyMementos_unfold latency draw fuel urims s)
      as (futures & s0 & -> & _ & _ & Hbp & _).
    destruct (poll_frame draw fuel 0 urims futures s0) as (Hp & _).
    apply Hnil. by rewrite Hp.
  - apply Hnil. apply (getFirstURIMByRawSimhash_same_stores h s).
Qed.

(** The derived-values store changes only when [getRawSimhash] finds no
    fingerprint stored for its URI-M. *)
Lemma exec_derived_collection (c : MethodCall) (s : Model) :
  let s' := exec session_get generate_raw_urim justext Simhash TimeMapDict
              convert_LinkTimeMap_to_dict strptime c s in
  derived_collection s' = derived_collection s \/
  exists u h,
    stored_raw_simhash u s = None /\
    (derived_collection s'
       = derived_collection s ++ [{| dv_urim := u; raw_simhash := Some h |}] \/
     derived_collection s' = update_raw_simhash u h (derived_collection s)).
Proof.
  destruct c;
    try (unfold_methods; repeat break_match; cbn [fst snd];
         by (left; reflexivity)).
  - left. cbn [exec].
    destruct (addManyMementos_unfold latency draw fuel urims s)
      as (futures & s0 & -> & _ & _ & _ & Hdv & _).
    destruct (poll_frame draw fuel 0 urims futures s0) as (_ & Hp & _).
    by rewrite Hp.
  - unfold stored_raw_simhash. unfold_methods.
    repeat break_match; cbn [fst snd]; simplify_eq;
      try (by (left; reflexivity));
      right; exists urim; eexists;
      (split; [| first [left; reflexivity | right; reflexivity]]);
      cbn [derived_collection log_call] in *;
      repeat match goal with H : find_one dv_urim _ _ = _ |- _ => rewrite H end;
      done.
  - left. apply (getFirstURIMByRawSimhash_same_stores h s).
Qed.

Lemma exec_stored_bpfree (c : MethodCall) (u : URI) (t : string) (s : Model) :
  stored_bpfree u s = Some t ->
  stored_bpfree u
    (exec session_get generate_raw_urim justext Simhash TimeMapDict
       convert_LinkTimeMap_to_dict strptime c s) = Some t.
Proof.
  unfold stored_bpfree. destruct (exec_bpfree_collection c s) as (l & ->).
  rewrite find_one_app.
  destruct (find_one bp_urim u (bpfree_collection s)); [done | discriminate].
Qed.

Lemma exec_stored_raw_simhash (c : MethodCall) (u : URI) (h : string) (s : Model) :
  stored_raw_simhash u s = Some h ->
  stored_raw_simhash u
    (exec session_get generate_raw_urim justext Simhash TimeMapDict
       convert_LinkTimeMap_to_dict strptime c s) = Some h.
Proof.
  intros Hs. unfold stored_raw_simhash in *.
  destruct (exec_derived_collection c s) as [-> | (u' & h' & Hnone & [-> | ->])];
    [exact Hs | |].
  - rewrite find_one_app.
    destruct (find_one dv_urim u (derived_collection s)); [exact Hs | discriminate].
  - assert (u <> u').
    { intros ->. unfold stored_raw_simhash in Hnone. congruence. }
    by rewrite find_one_update_other.
Qed.

Lemma exec_all_stored (cs : list MethodCall) (u : URI) (s : Model) :
  (forall t, stored_bpfree u s = Some t ->
     stored_bpfree u
       (exec_all session_get generate_raw_urim justext Simhash TimeMapDict
          convert_LinkTimeMap_to_dict strptime cs s) = Some t) /\
  (forall h, stored_raw_simhash u s = Some h ->
     stored_raw_simhash u
       (exec_all session_get generate_raw_urim justext Simhash TimeMapDict
          convert_LinkTimeMap_to_dict strptime cs s) = Some h).
Proof.
  revert s. induction cs as [|c cs IH]; intros s; simpl; [by split|].
  split; intros v Hv.
  - apply IH. by apply exec_stored_bpfree.
  - apply IH. by apply exec_stored_raw_simhash.
Qed.

(** A stored boilerplate-free text is what the method returns, unless the
    error gate raises; either way nothing is fetched, extracted or written. *)
Lemma getMementoContentWithoutBoilerplate_stored (u : URI) (t : string) (s : Model) :
  stored_bpfree u s = Some t ->
  getMementoContentWithoutBoilerplate session_get generate_raw_urim justext u s
    = (match find_one err_urim u (error_collection s) with
       | Some _ => Raise (CollectionModelMementoErrorException
                            ("Errors were recorded for URI-M " +:+ u))
       | None => Ok t
       end, s).
Proof.
  unfold stored_bpfree. intros Hs.
  unfold getMementoContentWithoutBoilerplate, bind.
  rewrite getMementoErrorInformation_spec.
  destruct (find_one err_urim u (error_collection s)); simpl; [reflexivity|].
  unfold gets. destruct (find_one bp_urim u (bpfree_collection s)); simplify_eq.
  reflexivity.
Qed.

Lemma getRawSimhash_stored (u : URI) (h : string) (s : Model) :
  stored_raw_simhash u s = Some h ->
  getRawSimhash session_get generate_raw_urim Simhash u s
    = (match find_one err_urim u (error_collection s) with
       | Some _ => Raise (CollectionModelMementoErrorException
                            ("Errors were recorded for URI-M " +:+ u))
       | None => Ok h
       end, s).
Proof.
  unfold stored_raw_simhash. intros Hs.
  unfold getRawSimhash, bind.
  rewrite getMementoErrorInformation_spec.
  destruct (find_one err_urim u (error_collection s)); simpl; [reflexivity|].
  unfold gets. destruct (find_one dv_urim u (derived_collection s)); simplify_eq.
  rewrite Hs. reflexivity.
Qed.

(** A call that returns leaves its result stored, and no Error Record. *)
Lemma getMementoContentWithoutBoilerplate_returns (u : URI) (t : string) (s s1 : Model) :
  getMementoContentWithoutBoilerplate session_get generate_raw_urim justext u s
    = (Ok t, s1) ->
  stored_bpfree u s1 = Some t /\ find_one err_urim u (error_collection s1) = None.
Proof.
  unfold_methods.
  repeat break_match; cbn [fst snd]; intros; simplify_eq;
    unfold stored_bpfree;
    cbn [bpfree_collection error_collection set_bpfree_collection log_call] in *;
    rewrite ?find_one_app;
    repeat match goal with H : find_one _ _ _ = _ |- _ => rewrite H end;
    try done.
  all: rewrite find_one_singleton by reflexivity; done.
Qed.

Lemma getRawSimhash_returns (u : URI) (h : string) (s s1 : Model) :
  getRawSimhash session_get generate_raw_urim Simhash u s = (Ok h, s1) ->
  stored_raw_simhash u s1 = Some h /\ find_one err_urim u (error_collection s1) = None.
Proof.
  unfold_methods.
  repeat break_match; cbn [fst snd]; intros; simplify_eq;
    unfold stored_raw_simhash;
    cbn [derived_collection error_collection set_derived_collection log_call] in *;
    rewrite ?find_one_app;
    repeat match goal with H : find_one _ _ _ = _ |- _ => rewrite H end;
    try done.
  all: first
    [ rewrite find_one_singleton by reflexivity; done
    | match goal with H : find_one dv_urim ?k _ = Some ?d |- _ =>
        rewrite (find_one_update_same k _ _ d H) end; done ].
Qed.

(** C6: [getMementoContentWithoutBoilerplate] is idempotent: when a call
    returns a text, the next call returns the same text and leaves the model
    as it is, the log of extractor calls included. Once a boilerplate-free
    text or a fingerprint is stored for a URI-M, it stays the stored value
    after any sequence of method calls, and the method that computes it
    leaves the model untouched: nothing is fetched, extracted, fingerprinted
    or written. *)
Theorem derived_values_are_memoized (u : URI) :
  (forall s t s1,
     getMementoContentWithoutBoilerplate session_get generate_raw_urim justext u s
       = (Ok t, s1) ->
     getMementoContentWithoutBoilerplate session_get generate_raw_urim justext u s1
       = (Ok t, s1) /\
     justext_calls
       (after (getMementoContentWithoutBoilerplate session_get generate_raw_urim
                 justext u) s1) = justext_calls s1) /\
  (forall s t cs,
     stored_bpfree u s = Some t ->
     stored_bpfree u
       (exec_all session_get generate_raw_urim justext Simhash TimeMapDict
          convert_LinkTimeMap_to_dict strptime cs s) = Some t /\
     after (getMementoContentWithoutBoilerplate session_get generate_raw_urim
              justext u) s = s) /\
  (forall s h cs,
     stored_raw_simhash u s = Some h ->
     stored_raw_simhash u
       (exec_all session_get generate_raw_urim justext Simhash TimeMapDict
          convert_LinkTimeMap_to_dict strptime cs s) = Some h /\
     after (getRawSimhash session_get generate_raw_urim Simhash u) s = s).
Proof.
  split; [|split].
  - intros s t s1 Hcall.
    destruct (getMementoContentWithoutBoilerplate_returns u t s s1 Hcall)
      as [Hstored Hnoerr].
    pose proof (getMementoContentWithoutBoilerplate_stored u t s1 Hstored) as H.
    rewrite Hnoerr in H. unfold after. rewrite H. split; reflexivity.
  - intros s t cs Hstored. split.
    + by apply exec_all_stored.
    + unfold after.
      by rewrite (getMementoContentWithoutBoilerplate_stored u t s Hstored).
  - intros s h cs Hstored. split.
    + by apply exec_all_stored.
    + unfold after. by rewrite (getRawSimhash_stored u h s Hstored).
Qed.

(** [getRawSimhash] is idempotent in the same way. *)
Lemma getRawSimhash_idempotent (u : URI) (h : string) (s s1 : Model) :
  getRawSimhash session_get generate_raw_urim Simhash u s = (Ok h, s1) ->
  getRawSimhash session_get generate_raw_urim Simhash u s1 = (Ok h, s1).
Proof.
  intros Hcall. destruct (getRawSimhash_returns u h s s1 Hcall) as [Hstored Hnoerr].
  rewrite (getRawSimhash_stored u h s1 Hstored), Hnoerr. reflexivity.
Qed.

(** *** The most recent memento of a fingerprint *)

Lemma find_by_raw_simhash_elem (h : string) (coll : list DerivedDoc) (u : URI) :
  u ∈ find_by_raw_simhash h coll <->
  exists d, d ∈ coll /\ dv_urim d = u /\ raw_simhash d = Some h.
Proof.
  unfold find_by_raw_simhash. rewrite list_elem_of_In, in_map_iff. split.
  - intros (d & Hu & Hd). apply filter_In in Hd as [Hd Hh].
    exists d. split; [by apply list_elem_of_In|]. split; [exact Hu|].
    destruct (raw_simhash d) as [h'|]; [|discriminate].
    apply String.eqb_eq in Hh. by subst.
  - intros (d & Hd & Hu & Hh). exists d. split; [exact Hu|].
    apply filter_In. split; [by apply list_elem_of_In|].
    rewrite Hh. apply String.eqb_refl.
Qed.

Lemma matching_tuple_capture_time (urim : URI) (t : datetime) (s : Model) :
  capture_time session_get strptime urim = Some t ->
  matching_tuple session_get strptime urim s
    = (Ok (t, urim), log_call (CallGet urim) s).
Proof.
  unfold capture_time, matching_tuple, getMementoHeaders, get. unfold_M.
  destruct (session_get urim) as [r|e]; [|discriminate].
  destruct (headers r !! "memento-datetime") as [v|]; [|discriminate].
  intros ->. reflexivity.
Qed.

Lemma mapM_matching_tuple (l : list URI) :
  (forall u, u ∈ l -> is_Some (capture_time session_get strptime u)) ->
  forall s, exists ps s',
    mapM (matching_tuple session_get strptime) l s = (Ok ps, s') /\
    length ps = length l /\
    forall t u, (t, u) ∈ ps <-> u ∈ l /\ capture_time session_get strptime u = Some t.
Proof.
  induction l as [|x l IH]; intros Hall s; simpl.
  - exists [], s. split; [reflexivity|]. split; [reflexivity|].
    intros t u. split; [by inversion 1 | by intros [H _]; inversion H].
  - destruct (Hall x) as [tx Hx]; [by left|].
    unfold bind at 1. rewrite (matching_tuple_capture_time x tx s Hx).
    destruct (IH (fun u Hu => Hall u (list_elem_of_further _ _ _ Hu))
                (log_call (CallGet x) s)) as (ps & s' & Hps & Hlen & Hiff).
    unfold bind, ret. rewrite Hps. exists ((tx, x) :: ps), s'.
    split; [reflexivity|]. split; [simpl; by rewrite Hlen|].
    intros t u. rewrite !elem_of_cons, Hiff. split.
    + intros [[= -> ->] | [Hu Ht]]; [by split; [left|] | by split; [right|]].
    + intros [[-> | Hu] Ht]; [left; congruence | right; by split].
Qed.

(** C7: when at least one derived-values document carries the fingerprint
    and the cached response of every URI-M that carries it has a capture
    time, [getFirstURIMByRawSimhash] returns a tuple [(t, u)] where [u]
    carries the fingerprint, [t] is its capture time, and every URI-M [u']
    carrying the fingerprint was captured before [t], or at [t] itself with
    [u'] not after [u] in the order of strings. *)
Theorem getFirstURIMByRawSimhash_most_recent (h : string) (s : Model) :
  (exists d, d ∈ derived_collection s /\ raw_simhash d = Some h) ->
  (forall d, d ∈ derived_collection s -> raw_simhash d = Some h ->
             is_Some (capture_time session_get strptime (dv_urim d))) ->
  exists t u s',
    getFirstURIMByRawSimhash session_get strptime h s = (Ok (t, u), s') /\
    (exists d, d ∈ derived_collection s /\ dv_urim d = u /\ raw_simhash d = Some h) /\
    capture_time session_get strptime u = Some t /\
    forall d t',
      d ∈ derived_collection s -> raw_simhash d = Some h ->
      capture_time session_get strptime (dv_urim d) = Some t' ->
      datetime_compare t' t = Lt \/ (t' = t /\ str_compare (dv_urim d) u <> Gt).
Proof.
  intros (d0 & Hd0 & Hh0) Hall.
  set (l := find_by_raw_simhash h (derived_collection s)).
  assert (Hl : forall u, u ∈ l -> is_Some (capture_time session_get strptime u)).
  { intros u (d & Hd & <- & Hh)%find_by_raw_simhash_elem. by apply Hall. }
  destruct (mapM_matching_tuple l Hl s) as (ps & s' & Hps & Hlen & Hiff).
  assert (Hd0l : dv_urim d0 ∈ l) by (apply find_by_raw_simhash_elem; eauto).
  destruct ps as [|p ps'].
  { destruct l; [by inversion Hd0l | discriminate]. }
  destruct (sorted_reverse (p :: ps')) as [|[t u] rest] eqn:Hsort.
  { by apply sorted_reverse_nonempty in Hsort. }
  assert (Hfirst : (t, u) ∈ p :: ps').
  { apply sorted_reverse_elem. rewrite Hsort. by left. }
  apply Hiff in Hfirst as [Hu Ht].
  exists t, u, s'. split; [|split; [|split]].
  - unfold getFirstURIMByRawSimhash. unfold bind at 1. unfold gets at 1.
    fold l. unfold bind. rewrite Hps, Hsort. reflexivity.
  - by apply find_by_raw_simhash_elem.
  - exact Ht.
  - intros d t' Hd Hh Ht'.
    assert (Hin : (t', dv_urim d) ∈ sorted_reverse (p :: ps')).
    { apply sorted_reverse_elem, Hiff. split; [|exact Ht'].
      apply find_by_raw_simhash_elem. eauto. }
    pose proof (sorted_reverse_first _ _ _ Hsort _ Hin) as Hle.
    unfold tuple_le, tuple_compare, lex in Hle. simpl in Hle.
    destruct (datetime_compare t' t) eqn:E; [right | by left | done].
    split; [by apply datetime_compare_Eq | exact Hle].
Qed.

End CollectionModelFacts.

(** ** Off-topic detection *)

(** Whatever measures follow the first one in the mapping, the result is
    that of the first alone: the body of the loop ends in [return]. *)
Lemma detect_off_topic_first_measure_only
  (supported_timemap_measures : string -> option MeasureEntry)
  (kv : string * Q) (rest : list (string * Q)) (num_topics : option nat) (s : Model) :
  detect_off_topic supported_timemap_measures (kv :: rest) num_topics s
  = detect_off_topic supported_timemap_measures [kv] num_topics s.
Proof.
  unfold detect_off_topic. cbn [for_each]. unfold detect_off_topic_body, bind, ret.
  destruct (run_measure supported_timemap_measures kv
              (empty_MeasureModel, num_topics) s) as [[st'|e] s1];
    reflexivity.
Qed.

(** With no measure at all the function returns [None]. *)
Lemma detect_off_topic_no_measure
  (supported_timemap_measures : string -> option MeasureEntry)
  (num_topics : option nat) (s : Model) :
  detect_off_topic supported_timemap_measures [] num_topics s = (Ok None, s).
Proof. reflexivity. Qed.

(** C1, as the code has it: with the measures [m1] (threshold 0.5, on-topic
    from the threshold up) and [m2] (threshold 0.3, on-topic up to the
    threshold) and a memento scoring 0.6 and 0.5, [detect_off_topic] returns
    the memento as on-topic, although its score fails [m2]: the list is
    returned at the end of the first iteration, before [m2] is run, and is
    the list for [m1] alone. Running both measures before the overall
    verdict leaves no memento on-topic. *)
Theorem detect_off_topic_returns_after_first_measure :
  fst (detect_off_topic two_measures two_thresholds None init) = Ok (Some ["uriA"]) /\
  passes GE (6 # 10) (5 # 10) = true /\
  passes LE (5 # 10) (3 # 10) = false /\
  detect_off_topic two_measures two_thresholds None init
    = detect_off_topic two_measures [("m1", 5 # 10)] None init /\
  fst (classify two_measures two_thresholds None init) = Ok [].
Proof.
  split; [vm_compute; reflexivity|].
  split; [reflexivity|]. split; [reflexivity|].
  split; [apply detect_off_topic_first_measure_only|].
  vm_compute. reflexivity.
Qed.

(** With a single measure the two agree. *)
Lemma detect_off_topic_single_measure
  (supported_timemap_measures : string -> option MeasureEntry)
  (kv : string * Q) (num_topics : option nat) (s : Model) :
  detect_off_topic supported_timemap_measures [kv] num_topics s
  = let '(r, s') := classify supported_timemap_measures [kv] num_topics s in
    (match r with Ok l => Ok (Some l) | Raise e => Raise e end, s').
Proof.
  unfold detect_off_topic, classify. cbn [for_each].
  unfold detect_off_topic_body, bind, ret.
  destruct (run_measure supported_timemap_measures kv
              (empty_MeasureModel, num_topics) s) as [[st'|e] s1];
    reflexivity.
Qed.

(** ** The properties on the example collections *)

Lemma addMemento_registers_a_404 :
  let s := after (addMemento archive_get archive_raw_urim "gone") init in
  fst (addMemento archive_get archive_raw_urim "gone" init) = Ok tt /\
  urimlist s = urimlist init ++ ["gone"] /\
  error_collection s = error_collection init.
Proof.
  apply (addMemento_registers_any_response archive_get archive_raw_urim "gone"
           (page 404 ∅ "not found") (page 404 ∅ "not found") init);
    reflexivity.
Defined.

Lemma getMementoContent_of_unregistered :
  getMementoContent archive_get archive_raw_urim "uriA" init
    = (Ok "<p>a</p>", log_call (CallGet "raw:uriA") init).
Proof.
  apply (getMementoContent_checks_nothing archive_get archive_raw_urim "uriA"
           (page 200 ∅ "<p>a</p>") init).
  reflexivity.
Defined.

(** The same on a model that holds an Error Record for the URI-M. *)
Lemma getMementoContent_despite_error_record :
  let s := after (addMementoError "uriA" (ErrStr "no memento")) init in
  find_one err_urim "uriA" (error_collection s)
    = Some {| err_urim := "uriA"; error_information := ErrStr "no memento" |} /\
  fst (getMementoContent archive_get archive_raw_urim "uriA" s) = Ok "<p>a</p>".
Proof. split; reflexivity. Qed.

Lemma getTimeMap_of_registered :
  let s := after (addTimeMap archive_get "urit") init in
  getTimeMap archive_get (list URI) archive_convert "urit" s
    = (Ok ["uriA"], log_call (CallGet "urit") s).
Proof.
  apply (getTimeMap_parses_session_body archive_get (list URI) archive_convert
           "urit" (page 200 ∅ "<uriA>; rel=memento")); reflexivity.
Defined.

(** C8, as stated, fails: on a new model, where no URI-T has been added,
    [getTimeMap] returns the parsed mapping instead of raising. *)
Lemma getTimeMap_of_unregistered_returns :
  uritlist init = [] /\
  fst (getTimeMap archive_get (list URI) archive_convert "urit" init) = Ok ["uriA"].
Proof. split; reflexivity. Qed.

Lemma error_record_gates_unreachable_host :
  let s := after (addMemento archive_get archive_raw_urim "down") init in
  getMementoContentWithoutBoilerplate archive_get archive_raw_urim archive_justext
    "down" s
    = (Raise (CollectionModelMementoErrorException
                "Errors were recorded for URI-M down"), s) /\
  getRawSimhash archive_get archive_raw_urim archive_Simhash "down" s
    = (Raise (CollectionModelMementoErrorException
                "Errors were recorded for URI-M down"), s).
Proof.
  apply (error_record_gates_derived_values archive_get archive_raw_urim
           archive_justext archive_Simhash "down"
           {| err_urim := "down";
              error_information := ErrBytes "ConnectionError('unreachable')" |}).
  - apply list_elem_of_In. left. reflexivity.
  - reflexivity.
Defined.

Lemma addManyMementos_unreachable_host_never_returns :
  returns (addManyMementos archive_get archive_raw_urim (fun _ => 0%nat)
             (fun _ => 0%nat) 5 ["down"] init) = false.
Proof.
  apply (addManyMementos_never_returns_on_request_exception archive_get
           archive_raw_urim (fun _ => 0%nat) (fun _ => 0%nat) 5 ["down"] "down"
           (ConnectionError "ConnectionError('unreachable')") init).
  - apply list_elem_of_In. left. reflexivity.
  - reflexivity.
Defined.

(** After five polls of a future that is done from the start, the loop is
    still running and five Error Records have been written. *)
Lemma addManyMementos_unreachable_host_five_polls :
  exists s',
    addManyMementos archive_get archive_raw_urim (fun _ => 0%nat) (fun _ => 0%nat)
      5 ["down"] init = OutOfFuel s' /\
    length (error_collection s') = 5%nat.
Proof. eexists. split; vm_compute; reflexivity. Qed.

Lemma batch_urims_NoDup : NoDup batch_urims.
Proof.
  unfold batch_urims.
  repeat (apply NoDup_cons; split;
          [rewrite list_elem_of_In; simpl; intuition discriminate|]).
  apply NoDup_nil_2.
Qed.

(** C3, as the code has it: on the batch of ten, of which three responses
    lack the capture time, [addManyMementos] returns for every latency of the
    futures and every sequence of draws, with exactly three Error Records;
    the list of registered URI-Ms is still empty. *)
Theorem addManyMementos_batch_of_ten
  (latency : URI -> nat) (draw : nat -> nat) (fuel : nat) :
  (max_latency latency batch_urims + 10 <= fuel)%nat ->
  exists s',
    addManyMementos batch_get archive_raw_urim latency draw fuel batch_urims init
      = Finished (Ok tt) s' /\
    length (error_collection s') = 3%nat /\
    urimlist s' = [].
Proof.
  intros Hfuel.
  destruct (addManyMementos_terminates batch_get archive_raw_urim latency draw
              fuel batch_urims init batch_urims_NoDup) as (s' & Hrun & Herr & Hlist).
  - intros u _. unfold batch_get.
    destruct (String.eqb u "m0" || String.eqb u "m1" || String.eqb u "m2"); eauto.
  - exact Hfuel.
  - exists s'. split; [exact Hrun|]. split; [|exact Hlist].
    rewrite Herr. vm_compute. reflexivity.
Qed.

Lemma addManyMementos_batch_of_ten_in_order :
  exists s',
    addManyMementos batch_get archive_raw_urim (fun _ => 0%nat) (fun _ => 0%nat)
      10 batch_urims init = Finished (Ok tt) s' /\
    length (error_collection s') = 3%nat /\
    urimlist s' = [].
Proof.
  apply (addManyMementos_batch_of_ten (fun _ => 0%nat) (fun _ => 0%nat) 10).
  vm_compute. lia.
Defined.

Lemma derived_values_of_uriA_are_memoized :
  let bp := getMementoContentWithoutBoilerplate archive_get archive_raw_urim
              archive_justext "uriA" in
  let s1 := after bp init in
  let s2 := after (getRawSimhash archive_get archive_raw_urim archive_Simhash "uriA") s1 in
  let later := [GetMementoContentWithoutBoilerplate "uriA"; GetRawSimhash "uriA";
                AddMemento "uriA"; GetRawSimhash "uriB"] in
  (bp s1 = (Ok ("<p>a</p>" +:+ newline), s1) /\
   justext_calls (after bp s1) = justext_calls s1) /\
  (stored_bpfree "uriA"
     (exec_all archive_get archive_raw_urim archive_justext archive_Simhash
        (list URI) archive_convert archive_strptime later s2)
     = Some ("<p>a</p>" +:+ newline) /\
   after bp s2 = s2) /\
  (stored_raw_simhash "uriA"
     (exec_all archive_get archive_raw_urim archive_justext archive_Simhash
        (list URI) archive_convert archive_strptime later s2) = Some "8" /\
   after (getRawSimhash archive_get archive_raw_urim archive_Simhash "uriA") s2 = s2).
Proof.
  pose proof (derived_values_are_memoized archive_get archive_raw_urim
                archive_justext archive_Simhash (list URI) archive_convert
                archive_strptime "uriA") as (Hidem & Hbp & Hsim).
  cbv zeta. split; [|split].
  - apply (Hidem init). vm_compute. reflexivity.
  - apply Hbp. vm_compute. reflexivity.
  - apply Hsim. vm_compute. reflexivity.
Defined.

Lemma getFirstURIMByRawSimhash_of_the_archive :
  exists t u s',
    getFirstURIMByRawSimhash archive_get archive_strptime "8" fingerprinted
      = (Ok (t, u), s') /\
    (exists d, d ∈ derived_collection fingerprinted /\ dv_urim d = u /\
               raw_simhash d = Some "8") /\
    capture_time archive_get archive_strptime u = Some t /\
    forall d t',
      d ∈ derived_collection fingerprinted -> raw_simhash d = Some "8" ->
      capture_time archive_get archive_strptime (dv_urim d) = Some t' ->
      datetime_compare t' t = Lt \/ (t' = t /\ str_compare (dv_urim d) u <> Gt).
Proof.
  apply (getFirstURIMByRawSimhash_most_recent archive_get archive_strptime
           "8" fingerprinted).
  - exists {| dv_urim := "uriA"; raw_simhash := Some "8" |}.
    split; [|reflexivity]. apply list_elem_of_In. left. reflexivity.
  - intros d Hd _. apply list_elem_of_In in Hd.
    destruct Hd as [<- | [<- | []]]; eexists; vm_compute; reflexivity.
Defined.

(** The example of the specification: of [uriA], captured in 2020, and
    [uriB], captured in 2021, the second is returned. *)
Lemma getFirstURIMByRawSimhash_returns_uriB :
  fst (getFirstURIMByRawSimhash archive_get archive_strptime "8" fingerprinted)
  = Ok ({| year := 2021; month := 6; day := 1; hour := 0; minute := 0; second := 0 |},
        "uriB").
Proof. vm_compute. reflexivity. Qed.

(** A fingerprint may be stored for a URI-M whose response has no capture
    time: the scan then stops with the [KeyError] of the missing header. *)
Lemma getFirstURIMByRawSimhash_without_capture_time :
  let s := after (getRawSimhash archive_get archive_raw_urim archive_Simhash "gone")
             (after (addMemento archive_get archive_raw_urim "gone") init) in
  stored_raw_simhash "gone" s = Some "9" /\
  fst (getFirstURIMByRawSimhash archive_get archive_strptime "9" s)
    = Raise (KeyError "memento-datetime").
Proof. split; vm_compute; reflexivity. Qed.

Lemma getMementoErrorInformation_in_the_archive :
  let run := exec_all archive_get archive_raw_urim archive_justext archive_Simhash
               (list URI) archive_convert archive_strptime in
  fst (getMementoErrorInformation "uriB"
         (run [AddMemento "uriA"; AddMemento "down"; GetRawSimhash "uriA"] init))
    = Ok None /\
  exists info,
    fst (getMementoErrorInformation "uriB"
           (run [AddMemento "uriA"]
              (after (addMementoError "uriB" (ErrStr "no memento")) init)))
      = Ok (Some info) /\
    (find_one err_urim "uriB" (error_collection init) = None ->
     info = ErrStr "no memento").
Proof.
  pose proof (getMementoErrorInformation_None_until_recorded archive_get
                archive_raw_urim archive_justext archive_Simhash (list URI)
                archive_convert archive_strptime "uriB") as [Hnone Hsome].
  cbv zeta. split.
  - apply Hnone. repeat (apply Forall_cons; split; [simpl; try tauto; discriminate|]).
    apply Forall_nil_2.
  - apply Hsome.
Defined.

(** * Further properties of the collection model *)

Lemma list_remove_Permutation (u : URI) (w : list URI) :
  u ∈ w -> w ≡ₚ u :: list_remove u w.
Proof.
  induction w as [|y w IH]; simpl; [by inversion 1|].
  destruct (String.eqb y u) eqn:E.
  - apply String.eqb_eq in E. by subst.
  - intros [->|H]%elem_of_cons.
    + rewrite String.eqb_refl in E. discriminate.
    + rewrite (IH H) at 1. apply Permutation_swap.
Qed.

Lemma filter_list_remove_Permutation (P : URI -> bool) (u : URI) (w : list URI) :
  u ∈ w ->
  List.filter P w ≡ₚ (if P u then [u] else []) ++ List.filter P (list_remove u w).
Proof.
  induction w as [|y w IH]; simpl; [by inversion 1|].
  destruct (String.eqb y u) eqn:E.
  - apply String.eqb_eq in E. subst y. intros _. by destruct (P u).
  - intros [->|H]%elem_of_cons.
    + rewrite String.eqb_refl in E. discriminate.
    + simpl. destruct (P y); [|by apply IH].
      rewrite (IH H). destruct (P u); simpl; [apply Permutation_swap | reflexivity].
Qed.

Section BatchIngestionFacts.

Variable session_get : URI -> FetchResult.
Variable generate_raw_urim : URI -> URI.
Variable justext : string -> JustextResult.
Variable Simhash : string -> N.

(** The records the loop writes when every pending future yields a
    response: one for each URI-M without the capture-time header, with the
    message of line 90. *)
Lemma poll_terminates_records (latency : URI -> nat) (draw : nat -> nat) (T : nat) :
  forall fuel t w futures s,
    NoDup w ->
    (forall u, u ∈ w ->
       futures !! u = Some (submit session_get latency u) /\
       (exists r, session_get u = Fetched r) /\ (latency u <= T)%nat) ->
    (T - t + length w <= fuel)%nat ->
    exists s' l,
      poll draw fuel t w futures s = Finished (Ok tt) s' /\
      error_collection s' = error_collection s ++ l /\
      map err_urim l ≡ₚ List.filter (lacks_memento_datetime session_get) w /\
      (forall d, d ∈ l ->
         error_information d
           = ErrStr ("URI-M " +:+ err_urim d +:+ " does not produce a memento")).
Proof.
  induction fuel as [|fuel IH]; intros t w futures s Hnd Hw Hfuel.
  - destruct w; simpl in *; [|lia]. exists s, []. rewrite app_nil_r.
    split; [reflexivity|]. split; [reflexivity|]. split; [constructor|].
    intros d Hd. by inversion Hd.
  - destruct w as [|x w']; cbn [poll].
    { exists s, []. rewrite app_nil_r.
      split; [reflexivity|]. split; [reflexivity|]. split; [constructor|].
      intros d Hd. by inversion Hd. }
    set (w := x :: w') in *. set (uri := choice (draw t) w).
    assert (Huri : uri ∈ w) by (apply choice_elem; discriminate).
    destruct (Hw uri Huri) as (Hf & [r Hr] & HT). rewrite Hf.
    cbn [ready_at outcome submit].
    pose proof (list_remove_length uri w Huri) as Hlen.
    destruct (latency uri <=? t)%nat eqn:Hready.
    + rewrite Hr.
      destruct (list_remove_NoDup uri w Hnd) as [Hnd' Hnotin].
      assert (Hw' : forall u, u ∈ list_remove uri w ->
                (delete uri futures) !! u = Some (submit session_get latency u) /\
                (exists r, session_get u = Fetched r) /\ (latency u <= T)%nat).
      { intros u Hu. assert (u <> uri) by (intros ->; contradiction).
        rewrite lookup_delete_ne by done. apply Hw. by eapply list_remove_elem. }
      pose proof (filter_list_remove_Permutation
                    (lacks_memento_datetime session_get) uri w Huri) as Hfilt.
      assert (Hlack : lacks_memento_datetime session_get uri
                      = match headers r !! "memento-datetime" with
                        | Some _ => false
                        | None => true
                        end)
        by (unfold lacks_memento_datetime; by rewrite Hr).
      rewrite Hlack in Hfilt. revert Hfilt.
      destruct (headers r !! "memento-datetime"); intros Hfilt.
      * destruct (IH (S t) _ _ s Hnd' Hw') as (s' & l & -> & He & Hp & Hl); [lia|].
        exists s', l. split; [reflexivity|]. split; [exact He|].
        split; [by rewrite Hfilt | exact Hl].
      * match goal with |- context [poll _ _ _ _ _ ?s1] =>
          destruct (IH (S t) _ _ s1 Hnd' Hw') as (s' & l & -> & He & Hp & Hl); [lia|] end.
        eexists s', (_ :: l). split; [reflexivity|]. split; [|split].
        -- rewrite He. simpl. rewrite <- app_assoc. reflexivity.
        -- rewrite Hfilt. simpl. by rewrite Hp.
        -- intros d [->|Hd]%elem_of_cons; [reflexivity | by apply Hl].
    + apply Nat.leb_gt in Hready.
      destruct (IH (S t) w futures s Hnd Hw) as (s' & l & -> & He & Hp & Hl); [lia|].
      exists s', l. repeat split; assumption.
Qed.

(** The error gate of the two derived-value methods, for a lookup that
    finds a record. *)
Lemma error_gate_raises (urim : URI) (d : ErrorDoc) (s : Model) :
  find_one err_urim urim (error_collection s) = Some d ->
  getMementoContentWithoutBoilerplate session_get generate_raw_urim justext urim s
    = (Raise (CollectionModelMementoErrorException
                ("Errors were recorded for URI-M " +:+ urim)), s) /\
  getRawSimhash session_get generate_raw_urim Simhash urim s
    = (Raise (CollectionModelMementoErrorException
                ("Errors were recorded for URI-M " +:+ urim)), s).
Proof.
  intros Hd. unfold getMementoContentWithoutBoilerplate, getRawSimhash, bind.
  rewrite !getMementoErrorInformation_spec, Hd. simpl. split; reflexivity.
Qed.

Lemma addManyMementos_ingests (latency : URI -> nat) (draw : nat -> nat)
  (fuel : nat) (urims : list URI) (s : Model) :
  NoDup urims ->
  (forall u, u ∈ urims -> exists r, session_get u = Fetched r) ->
  (max_latency latency urims + length urims <= fuel)%nat ->
  exists s' l,
    addManyMementos session_get generate_raw_urim latency draw fuel urims s
      = Finished (Ok tt) s' /\
    error_collection s' = error_collection s ++ l /\
    map err_urim l ≡ₚ List.filter (lacks_memento_datetime session_get) urims /\
    (forall d, d ∈ l ->
       error_information d
         = ErrStr ("URI-M " +:+ err_urim d +:+ " does not produce a memento")) /\
    bpfree_collection s' = bpfree_collection s /\
    derived_collection s' = derived_collection s /\
    urimlist s' = urimlist s /\
    uritlist s' = uritlist s.
Proof.
  intros Hnd Hall Hfuel.
  destruct (addManyMementos_unfold session_get generate_raw_urim latency draw
              fuel urims s)
    as (futures & s0 & Hrun & Hlook & Herr & Hbp & Hdv & Hurim & Hurit).
  destruct (poll_terminates_records latency draw (max_latency latency urims)
              fuel 0 urims futures s0 Hnd) as (s' & l & Hp & He & Hperm & Hl).
  - intros u Hu. split; [by apply Hlook|]. split; [by apply Hall|].
    by apply max_latency_bound.
  - lia.
  - pose proof (poll_frame draw fuel 0 urims futures s0) as Hframe.
    rewrite Hp in Hframe. cbn [run_state] in Hframe.
    destruct Hframe as (F1 & F2 & F3 & F4 & _).
    exists s', l. rewrite Hrun, Hp, He, Herr, F1, F2, F3, F4, Hbp, Hdv, Hurim, Hurit.
    repeat split; assumption.
Qed.

(** X1: A batch of distinct URI-Ms whose fetches all yield a response is
    ingested in finitely many polls, for every latency and every sequence of
    draws: the Error Store gains exactly one record, with the message of line
    90, for each URI-M whose response lacks the capture-time header, and
    nothing else changes. *)
Theorem addManyMementos_converges (latency : URI -> nat) (draw : nat -> nat)
  (fuel : nat) (urims : list URI) (s : Model) :
  NoDup urims ->
  (forall u, u ∈ urims -> exists r, session_get u = Fetched r) ->
  (max_latency latency urims + length urims <= fuel)%nat ->
  exists s' l,
    addManyMementos session_get generate_raw_urim latency draw fuel urims s
      = Finished (Ok tt) s' /\
    error_collection s' = error_collection s ++ l /\
    map err_urim l ≡ₚ List.filter (lacks_memento_datetime session_get) urims /\
    (forall d, d ∈ l ->
       error_information d
         = ErrStr ("URI-M " +:+ err_urim d +:+ " does not produce a memento")) /\
    bpfree_collection s' = bpfree_collection s /\
    derived_collection s' = derived_collection s /\
    urimlist s' = urimlist s /\
    uritlist s' = uritlist s.
Proof. apply addManyMementos_ingests. Qed.

(** X2: After such a batch, the error information of a member that had no
    Error Record before is the message of line 90 when its response lacked the
    capture-time header, and [None] when it carried one. *)
Theorem addManyMementos_error_information (latency : URI -> nat) (draw : nat -> nat)
  (fuel : nat) (urims : list URI) (s : Model) (u : URI) :
  NoDup urims ->
  (forall u, u ∈ urims -> exists r, session_get u = Fetched r) ->
  (max_latency latency urims + length urims <= fuel)%nat ->
  u ∈ urims ->
  find_one err_urim u (error_collection s) = None ->
  exists s',
    addManyMementos session_get generate_raw_urim latency draw fuel urims s
      = Finished (Ok tt) s' /\
    fst (getMementoErrorInformation u s')
      = Ok (if lacks_memento_datetime session_get u
            then Some (ErrStr ("URI-M " +:+ u +:+ " does not produce a memento"))
            else None).
Proof.
  intros Hnd Hall Hfuel Hu Hnone.
  destruct (addManyMementos_ingests latency draw fuel urims s Hnd Hall Hfuel)
    as (s' & l & Hrun & He & Hperm & Hl & _).
  exists s'. split; [exact Hrun|].
  rewrite getMementoErrorInformation_spec, He, find_one_app, Hnone. simpl.
  destruct (lacks_memento_datetime session_get u) eqn:Hlack.
  - assert (Hin : u ∈ map err_urim l).
    { rewrite Hperm, list_elem_of_In. apply filter_In.
      split; [by apply list_elem_of_In | exact Hlack]. }
    apply list_elem_of_fmap in Hin as (d & Hd & Hdl).
    destruct (find_one_is_Some err_urim u l d Hdl (eq_sym Hd)) as [d' Hd'].
    rewrite Hd'. simpl. apply find_one_Some in Hd' as [Hin' Hk].
    rewrite (Hl d' Hin'), Hk. reflexivity.
  - replace (find_one err_urim u l) with (@None ErrorDoc); [reflexivity|].
    symmetry. apply find_one_None. intros d Hd Hk.
    assert (Hin : u ∈ List.filter (lacks_memento_datetime session_get) urims).
    { rewrite <- Hperm, <- Hk. apply list_elem_of_fmap. eauto. }
    apply list_elem_of_In, filter_In in Hin as [_ Hin]. congruence.
Qed.

(** X4: Whatever the fetches do and however long the loop runs, the batch
    ingestion leaves the registered lists and the derived-value stores as they
    were, and the Error Records it writes are for URI-Ms of the batch. *)
Theorem addManyMementos_frame (latency : URI -> nat) (draw : nat -> nat)
  (fuel : nat) (urims : list URI) (s : Model) :
  let s' := run_state (addManyMementos session_get generate_raw_urim latency draw
                         fuel urims s) in
  bpfree_collection s' = bpfree_collection s /\
  derived_collection s' = derived_collection s /\
  urimlist s' = urimlist s /\
  uritlist s' = uritlist s /\
  exists l, error_collection s' = error_collection s ++ l /\
            forall d, d ∈ l -> err_urim d ∈ urims.
Proof.
  destruct (addManyMementos_unfold session_get generate_raw_urim latency draw
              fuel urims s)
    as (futures & s0 & Hrun & _ & Herr & Hbp & Hdv & Hurim & Hurit).
  cbv zeta. rewrite Hrun.
  destruct (poll_frame draw fuel 0 urims futures s0)
    as (F1 & F2 & F3 & F4 & _ & l & F6 & F7).
  rewrite F1, F2, F3, F4, Hbp, Hdv, Hurim, Hurit. repeat split.
  exists l. rewrite F6, Herr. split; [reflexivity | exact F7].
Qed.

(** Once a pending URI-M is repeated or has lost its future, the loop ends
    by looking up a future that is not there. *)
Lemma poll_meets_missing_future (latency : URI -> nat) (draw : nat -> nat) (T : nat) :
  forall fuel t w futures s,
    (forall u, u ∈ w ->
       futures !! u = None \/
       (futures !! u = Some (submit session_get latency u) /\
        (exists r, session_get u = Fetched r) /\ (latency u <= T)%nat)) ->
    (~ NoDup w \/ exists u, u ∈ w /\ futures !! u = None) ->
    (T - t + length w <= fuel)%nat ->
    exists k s',
      poll draw fuel t w futures s = Finished (Raise (KeyError k)) s' /\ k ∈ w.
Proof.
  induction fuel as [|fuel IH]; intros t w futures s Hinv Hbad Hfuel.
  - exfalso. destruct w as [|x w']; simpl in Hfuel; [|lia].
    destruct Hbad as [Hbad | (u & Hu & _)]; [apply Hbad; constructor | by inversion Hu].
  - destruct w as [|x w'].
    { exfalso. destruct Hbad as [Hbad | (u & Hu & _)];
        [apply Hbad; constructor | by inversion Hu]. }
    cbn [poll]. set (w := x :: w') in *. set (uri := choice (draw t) w).
    assert (Huri : uri ∈ w) by (apply choice_elem; discriminate).
    destruct (Hinv uri Huri) as [Hf | (Hf & [r Hr] & HT)]; rewrite Hf.
    { exists uri, s. split; [reflexivity | exact Huri]. }
    cbn [ready_at outcome submit].
    pose proof (list_remove_length uri w Huri) as Hlen.
    destruct (latency uri <=? t)%nat eqn:Hready.
    + rewrite Hr.
      match goal with |- context [poll _ _ _ _ _ ?s1] =>
        destruct (IH (S t) (list_remove uri w) (delete uri futures) s1)
          as (k & s' & Hp & Hk) end.
      * intros u Hu. destruct (decide (u = uri)) as [->|Hne].
        -- left. apply lookup_delete_eq.
        -- rewrite lookup_delete_ne by done. apply Hinv. by eapply list_remove_elem.
      * destruct (decide (uri ∈ list_remove uri w)) as [Hdup|Hnodup].
        { right. exists uri. split; [exact Hdup | apply lookup_delete_eq]. }
        destruct Hbad as [Hbad | (v & Hv & Hvf)].
        -- left. intros Hnd. apply Hbad.
           rewrite (list_remove_Permutation uri w Huri).
           apply NoDup_cons. by split.
        -- right. exists v. assert (v <> uri) by (intros ->; congruence).
           split; [by apply list_remove_other | by rewrite lookup_delete_ne].
      * lia.
      * exists k, s'. split; [exact Hp | by eapply list_remove_elem].
    + apply Nat.leb_gt in Hready.
      destruct (IH (S t) w futures s Hinv Hbad) as (k & s' & Hp & Hk); [lia|].
      exists k, s'. split; assumption.
Qed.

(** X3: A URI-M that occurs twice in the batch has one future only: once it is
    dropped, its second occurrence finds no future. When every fetch yields a
    response the loop then ends with a [KeyError], for every latency and every
    sequence of draws. *)
Theorem addManyMementos_duplicate_raises_KeyError
  (latency : URI -> nat) (draw : nat -> nat)
  (fuel : nat) (urims : list URI) (s : Model) :
  ~ NoDup urims ->
  (forall u, u ∈ urims -> exists r, session_get u = Fetched r) ->
  (max_latency latency urims + length urims <= fuel)%nat ->
  exists k s',
    addManyMementos session_get generate_raw_urim latency draw fuel urims s
      = Finished (Raise (KeyError k)) s' /\
    k ∈ urims.
Proof.
  intros Hdup Hall Hfuel.
  destruct (addManyMementos_unfold session_get generate_raw_urim latency draw
              fuel urims s) as (futures & s0 & -> & Hlook & _).
  apply (poll_meets_missing_future latency draw (max_latency latency urims)).
  - intros u Hu. right. split; [by apply Hlook|]. split; [by apply Hall|].
    by apply max_latency_bound.
  - by left.
  - lia.
Qed.

End BatchIngestionFacts.

Section RegistrationFacts.

Variable session_get : URI -> FetchResult.
Variable generate_raw_urim : URI -> URI.
Variable justext : string -> JustextResult.
Variable Simhash : string -> N.
Variable TimeMapDict : Type.
Variable convert_LinkTimeMap_to_dict : string -> option TimeMapDict.
Variable strptime : string -> option datetime.

(** What [addMemento] does, by the outcome of its two fetches. *)
Lemma addMemento_by_fetch_failure (urim : URI) (s : Model) :
  let s' := after (addMemento session_get generate_raw_urim urim) s in
  match fetch_failure session_get generate_raw_urim urim with
  | None =>
      fst (addMemento session_get generate_raw_urim urim s) = Ok tt /\
      urimlist s' = urimlist s ++ [urim] /\
      error_collection s' = error_collection s
  | Some e =>
      urimlist s' = urimlist s /\
      if is_connection_failure e
      then fst (addMemento session_get generate_raw_urim urim s) = Ok tt /\
           error_collection s'
             = error_collection s
               ++ [{| err_urim := urim; error_information := ErrBytes (repr e) |}]
      else fst (addMemento session_get generate_raw_urim urim s)
             = Raise (RequestExn e) /\
           error_collection s' = error_collection s
  end /\
  bpfree_collection s' = bpfree_collection s /\
  derived_collection s' = derived_collection s /\
  uritlist s' = uritlist s.
Proof.
  unfold fetch_failure. unfold_methods.
  destruct (session_get urim) as [r|[]];
    [destruct (session_get (generate_raw_urim urim)) as [r'|[]]|..];
    cbn; repeat split.
Qed.

(** X5: When one of the two fetches of [addMemento] raises [ConnectionError] or
    [TooManyRedirects], the method returns normally, the URI-M is not
    registered, one Error Record holding [bytes(repr(e))] is appended, and from
    then on the boilerplate-free text and the fingerprint of the URI-M raise
    [CollectionModelMementoErrorException]. *)
Theorem addMemento_failure_is_recorded (urim : URI) (e : RequestException) (s : Model) :
  fetch_failure session_get generate_raw_urim urim = Some e ->
  is_connection_failure e = true ->
  let s' := after (addMemento session_get generate_raw_urim urim) s in
  fst (addMemento session_get generate_raw_urim urim s) = Ok tt /\
  urimlist s' = urimlist s /\
  error_collection s'
    = error_collection s
      ++ [{| err_urim := urim; error_information := ErrBytes (repr e) |}] /\
  getMementoContentWithoutBoilerplate session_get generate_raw_urim justext urim s'
    = (Raise (CollectionModelMementoErrorException
                ("Errors were recorded for URI-M " +:+ urim)), s') /\
  getRawSimhash session_get generate_raw_urim Simhash urim s'
    = (Raise (CollectionModelMementoErrorException
                ("Errors were recorded for URI-M " +:+ urim)), s').
Proof.
  intros Hfail Hconn. pose proof (addMemento_by_fetch_failure urim s) as H.
  cbv zeta in *. rewrite Hfail, Hconn in H.
  destruct H as ((Hlist & Hok & Herr) & _).
  split; [exact Hok|]. split; [exact Hlist|]. split; [exact Herr|].
  destruct (find_one_is_Some err_urim urim
              (error_collection (after (addMemento session_get generate_raw_urim urim) s))
              {| err_urim := urim; error_information := ErrBytes (repr e) |})
    as [d Hd]; [rewrite Herr; apply list_elem_of_In, in_or_app; right; by left
               | reflexivity |].
  by apply (error_gate_raises session_get generate_raw_urim justext Simhash urim d).
Qed.

(** X6: Any other request exception of either fetch leaves [addMemento]: the
    URI-M is neither registered nor given an Error Record, and no store
    changes. *)
Theorem addMemento_other_exception_propagates (urim : URI) (e : RequestException)
  (s : Model) :
  fetch_failure session_get generate_raw_urim urim = Some e ->
  is_connection_failure e = false ->
  fst (addMemento session_get generate_raw_urim urim s) = Raise (RequestExn e) /\
  same_stores s (after (addMemento session_get generate_raw_urim urim) s).
Proof.
  intros Hfail Hconn. pose proof (addMemento_by_fetch_failure urim s) as H.
  cbv zeta in *. rewrite Hfail, Hconn in H.
  destruct H as ((Hlist & Hraise & Herr) & Hbp & Hdv & Hurit).
  split; [exact Hraise|]. by repeat split.
Qed.

Lemma exec_all_app (cs1 cs2 : list MethodCall) (s : Model) :
  exec_all session_get generate_raw_urim justext Simhash TimeMapDict
    convert_LinkTimeMap_to_dict strptime (cs1 ++ cs2) s
  = exec_all session_get generate_raw_urim justext Simhash TimeMapDict
      convert_LinkTimeMap_to_dict strptime cs2
      (exec_all session_get generate_raw_urim justext Simhash TimeMapDict
         convert_LinkTimeMap_to_dict strptime cs1 s).
Proof. unfold exec_all. apply fold_left_app. Qed.

(** X7: After [addMemento] has been called on each URI-M of a list, in order,
    the registered list has grown by those whose two fetches yielded a
    response, in the order of the calls and with repetitions kept, and the
    Error Store by one record for each whose fetch met [ConnectionError] or
    [TooManyRedirects]. *)
Theorem addMemento_sequence (us : list URI) (s : Model) :
  let s' := exec_all session_get generate_raw_urim justext Simhash TimeMapDict
              convert_LinkTimeMap_to_dict strptime (map AddMemento us) s in
  urimlist s' = urimlist s ++ List.filter (both_fetched session_get generate_raw_urim) us /\
  exists l,
    error_collection s' = error_collection s ++ l /\
    map err_urim l = List.filter (failure_recorded session_get generate_raw_urim) us.
Proof.
  cbv zeta. revert s. induction us as [|u us IH]; intros s; simpl.
  - rewrite app_nil_r. split; [reflexivity|]. exists []. by rewrite app_nil_r.
  - pose proof (addMemento_by_fetch_failure u s) as H. cbv zeta in H.
    match goal with |- context [exec_all _ _ _ _ _ _ _ _ ?s1] =>
      destruct (IH s1) as (IHl & l & IHe & IHm) end.
    rewrite IHl, IHe. unfold both_fetched, failure_recorded. cbn [exec].
    destruct (fetch_failure session_get generate_raw_urim u) as [e|].
    + destruct H as ((Hl & Hrest) & _). rewrite Hl. split; [reflexivity|].
      destruct (is_connection_failure e).
      * destruct Hrest as [_ ->]. eexists (_ :: l). rewrite <- app_assoc.
        split; [reflexivity|]. simpl. by rewrite IHm.
      * destruct Hrest as [_ ->]. exists l. split; [reflexivity | exact IHm].
    + destruct H as ((_ & Hl & He) & _). rewrite Hl, He, <- app_assoc.
      split; [reflexivity|]. exists l. split; [reflexivity | exact IHm].
Qed.

(** X8: The error information of a URI-M never changes once it is recorded:
    later records for the same URI-M are appended behind the first, which is
    the one looked up. *)
Theorem error_information_is_permanent (u : URI) (x : ErrorInformation)
  (cs : list MethodCall) (s : Model) :
  fst (getMementoErrorInformation u s) = Ok (Some x) ->
  fst (getMementoErrorInformation u
         (exec_all session_get generate_raw_urim justext Simhash TimeMapDict
            convert_LinkTimeMap_to_dict strptime cs s)) = Ok (Some x).
Proof.
  rewrite !getMementoErrorInformation_spec. simpl.
  destruct (exec_all_error_collection session_get generate_raw_urim justext Simhash
              TimeMapDict convert_LinkTimeMap_to_dict strptime cs s) as (l & -> & _).
  rewrite find_one_app.
  destruct (find_one err_urim u (error_collection s)); [done | discriminate].
Qed.

(** X9: The reading methods write nothing: after any of them the three stores
    and the two registered lists are as before. *)
Theorem read_only_calls_write_nothing (c : MethodCall) (s : Model) :
  read_only c = true ->
  same_stores s
    (exec session_get generate_raw_urim justext Simhash TimeMapDict
       convert_LinkTimeMap_to_dict strptime c s).
Proof.
  destruct c; try discriminate; intros _;
    try (unfold_methods; repeat break_match; cbn [fst snd]; by repeat split).
  apply (getFirstURIMByRawSimhash_same_stores session_get strptime h s).
Qed.

End RegistrationFacts.

Section DerivedValueFacts.

Variable session_get : URI -> FetchResult.
Variable generate_raw_urim : URI -> URI.
Variable justext : string -> JustextResult.
Variable Simhash : string -> N.
Variable TimeMapDict : Type.
Variable convert_LinkTimeMap_to_dict : string -> option TimeMapDict.
Variable strptime : string -> option datetime.

(** X12: For a fingerprint that no derived-values document carries, the list to
    sort is empty and [sorted(...)[0]] raises [IndexError]; nothing is fetched
    and the model stays as it is. *)
Theorem getFirstURIMByRawSimhash_unknown_fingerprint (h : string) (s : Model) :
  (forall d, d ∈ derived_collection s -> raw_simhash d <> Some h) ->
  getFirstURIMByRawSimhash session_get strptime h s = (Raise IndexError, s).
Proof.
  intros Hnone.
  assert (Hempty : find_by_raw_simhash h (derived_collection s) = []).
  { destruct (find_by_raw_simhash h (derived_collection s)) as [|u l] eqn:E;
      [reflexivity|].
    assert (Hu : u ∈ find_by_raw_simhash h (derived_collection s))
      by (rewrite E; by left).
    apply find_by_raw_simhash_elem in Hu as (d & Hd & _ & Hh).
    exfalso. exact (Hnone d Hd Hh). }
  unfold getFirstURIMByRawSimhash. unfold_M. rewrite Hempty. reflexivity.
Qed.

(** The scan of the matching URI-Ms ends with as many tuples as URI-Ms, or
    with an exception other than [IndexError]. *)
Lemma mapM_matching_tuple_outcome (l : list URI) (s : Model) :
  match mapM (matching_tuple session_get strptime) l s with
  | (Ok ps, _) => length ps = length l
  | (Raise e, _) => e <> IndexError
  end.
Proof.
  revert s. induction l as [|u l IH]; intros s; simpl; [reflexivity|].
  unfold bind at 1.
  destruct (matching_tuple session_get strptime u s) as [[p|e] s1] eqn:E.
  - unfold bind, ret. specialize (IH s1).
    destruct (mapM (matching_tuple session_get strptime) l s1) as [[ps|e] s2];
      simpl; [by rewrite IH | exact IH].
  - revert E. unfold matching_tuple, getMementoHeaders, get. unfold_M.
    repeat break_match; intros; simplify_eq; discriminate.
Qed.

(** X13: A fingerprint returned by [getRawSimhash] is stored with its URI-M, so
    that the URI-M is among those [getFirstURIMByRawSimhash] scans for that
    fingerprint, and that call does not raise [IndexError]. *)
Theorem getRawSimhash_then_getFirstURIMByRawSimhash (u : URI) (h : string)
  (s s1 : Model) :
  getRawSimhash session_get generate_raw_urim Simhash u s = (Ok h, s1) ->
  u ∈ find_by_raw_simhash h (derived_collection s1) /\
  fst (getFirstURIMByRawSimhash session_get strptime h s1) <> Raise IndexError.
Proof.
  intros Hcall.
  destruct (getRawSimhash_returns session_get generate_raw_urim Simhash u h s s1 Hcall)
    as [Hstored _].
  assert (Hu : u ∈ find_by_raw_simhash h (derived_collection s1)).
  { unfold stored_raw_simhash in Hstored.
    destruct (find_one dv_urim u (derived_collection s1)) as [d|] eqn:E;
      [|discriminate].
    apply find_one_Some in E as [Hd Hk]. apply find_by_raw_simhash_elem. eauto. }
  split; [exact Hu|].
  unfold getFirstURIMByRawSimhash. unfold bind at 1. unfold gets at 1.
  unfold bind.
  pose proof (mapM_matching_tuple_outcome
                (find_by_raw_simhash h (derived_collection s1)) s1) as Hout.
  destruct (mapM (matching_tuple session_get strptime)
              (find_by_raw_simhash h (derived_collection s1)) s1) as [[ps|e] s2];
    simpl; [|congruence].
  destruct ps as [|p ps].
  - destruct (find_by_raw_simhash h (derived_collection s1));
      [by inversion Hu | discriminate].
  - destruct (sorted_reverse (p :: ps)) eqn:Hsort; [|discriminate].
    by apply sorted_reverse_nonempty in Hsort.
Qed.

(** X14: When the extractor cannot parse the content, the method raises
    [CollectionModelBoilerPlateRemovalFailureException] and stores nothing: the
    extractor has been invoked once more, and the next call will invoke it
    again. *)
Theorem boilerplate_removal_failure_is_not_stored (u : URI) (r : Response)
  (msg : string) (s : Model) :
  find_one err_urim u (error_collection s) = None ->
  stored_bpfree u s = None ->
  session_get (generate_raw_urim u) = Fetched r ->
  (justext (text r) = ParserError msg \/ justext (text r) = XMLSyntaxError msg) ->
  let s' := after (getMementoContentWithoutBoilerplate session_get generate_raw_urim
                     justext u) s in
  fst (getMementoContentWithoutBoilerplate session_get generate_raw_urim justext u s)
    = Raise (CollectionModelBoilerPlateRemovalFailureException msg) /\
  same_stores s s' /\
  stored_bpfree u s' = None /\
  justext_calls s' = S (justext_calls s).
Proof.
  intros Herr Hbp Hraw Hjt. unfold stored_bpfree in *.
  destruct (find_one bp_urim u (bpfree_collection s)) eqn:Hfind; [discriminate|].
  unfold justext_calls. unfold_methods. rewrite Herr.
  destruct (bool_decide (u ∈ urimlist s)); cbv beta iota;
    rewrite Hfind; cbv beta iota; rewrite Hraw; cbv beta iota;
    destruct Hjt as [-> | ->]; cbv beta iota; cbn [fst snd];
    unfold same_stores; cbn [error_collection bpfree_collection derived_collection
                               urimlist uritlist calls log_call];
    rewrite Hfind, !List.filter_app, !length_app; cbn; repeat split; lia.
Qed.

End DerivedValueFacts.

Section StoreInvariants.

Variable session_get : URI -> FetchResult.
Variable generate_raw_urim : URI -> URI.
Variable justext : string -> JustextResult.
Variable Simhash : string -> N.
Variable TimeMapDict : Type.
Variable convert_LinkTimeMap_to_dict : string -> option TimeMapDict.
Variable strptime : string -> option datetime.

(** A boilerplate document is appended only for a URI-M that has none. *)
Lemma exec_bpfree_collection_fresh (c : MethodCall) (s : Model) :
  let s' := exec session_get generate_raw_urim justext Simhash TimeMapDict
              convert_LinkTimeMap_to_dict strptime c s in
  bpfree_collection s' = bpfree_collection s \/
  exists d, bpfree_collection s' = bpfree_collection s ++ [d] /\
            find_one bp_urim (bp_urim d) (bpfree_collection s) = None.
Proof.
  destruct c;
    try (unfold_methods; repeat break_match; cbn [fst snd];
         by (left; reflexivity)).
  - left. cbn [exec].
    destruct (addManyMementos_unfold session_get generate_raw_urim latency draw
                fuel urims s) as (futures & s0 & -> & _ & _ & Hbp & _).
    destruct (poll_frame draw fuel 0 urims futures s0) as (Hp & _).
    by rewrite Hp.
  - unfold_methods.
    repeat break_match; cbn [fst snd]; simplify_eq;
      try (by (left; reflexivity));
      right; eexists; (split; [reflexivity|]);
      cbn [bpfree_collection log_call bp_urim] in *; assumption.
  - left. apply (getFirstURIMByRawSimhash_same_stores session_get strptime h s).
Qed.

(** A derived-values document is appended only for a URI-M that has none;
    otherwise the first document of the URI-M gets the field. *)
Lemma exec_derived_collection_fresh (c : MethodCall) (s : Model) :
  let s' := exec session_get generate_raw_urim justext Simhash TimeMapDict
              convert_LinkTimeMap_to_dict strptime c s in
  derived_collection s' = derived_collection s \/
  (exists u h,
     find_one dv_urim u (derived_collection s) = None /\
     derived_collection s'
       = derived_collection s ++ [{| dv_urim := u; raw_simhash := Some h |}]) \/
  (exists u h, derived_collection s' = update_raw_simhash u h (derived_collection s)).
Proof.
  destruct c;
    try (unfold_methods; repeat break_match; cbn [fst snd];
         by (left; reflexivity)).
  - left. cbn [exec].
    destruct (addManyMementos_unfold session_get generate_raw_urim latency draw
                fuel urims s) as (futures & s0 & -> & _ & _ & _ & Hdv & _).
    destruct (poll_frame draw fuel 0 urims futures s0) as (_ & Hp & _).
    by rewrite Hp.
  - unfold_methods.
    repeat break_match; cbn [fst snd]; simplify_eq;
      try (by (left; reflexivity));
      cbn [derived_collection log_call set_derived_collection] in *;
      first [ right; left; eexists _, _; split; [eassumption | reflexivity]
            | right; right; eexists _, _; reflexivity ].
  - left. apply (getFirstURIMByRawSimhash_same_stores session_get strptime h s).
Qed.

Lemma update_raw_simhash_urims (u : URI) (h : string) (coll : list DerivedDoc) :
  map dv_urim (update_raw_simhash u h coll) = map dv_urim coll.
Proof.
  induction coll as [|d coll IH]; simpl; [reflexivity|].
  destruct (String.eqb (dv_urim d) u); simpl; [reflexivity | by rewrite IH].
Qed.

Lemma NoDup_keys_snoc {D} (key : D -> URI) (coll : list D) (d : D) :
  NoDup (map key coll) ->
  find_one key (key d) coll = None ->
  NoDup (map key (coll ++ [d])).
Proof.
  intros Hnd Hnone. rewrite map_app. simpl. apply NoDup_app.
  split; [exact Hnd|]. split; [|apply NoDup_singleton].
  intros k Hk ->%list_elem_of_singleton.
  apply list_elem_of_fmap in Hk as (d' & Hk & Hd').
  exact (proj1 (find_one_None key (key d) coll) Hnone d' Hd' (eq_sym Hk)).
Qed.

(** X11: The two derived-value stores keep at most one document per URI-M,
    whatever methods are called. *)
Theorem one_document_per_URI_M (cs : list MethodCall) (s : Model) :
  NoDup (map bp_urim (bpfree_collection s)) ->
  NoDup (map dv_urim (derived_collection s)) ->
  let s' := exec_all session_get generate_raw_urim justext Simhash TimeMapDict
              convert_LinkTimeMap_to_dict strptime cs s in
  NoDup (map bp_urim (bpfree_collection s')) /\
  NoDup (map dv_urim (derived_collection s')).
Proof.
  cbv zeta. revert s. induction cs as [|c cs IH]; intros s Hbp Hdv; simpl;
    [by split|].
  apply IH.
  - destruct (exec_bpfree_collection_fresh c s) as [-> | (d & -> & Hnone)];
      [exact Hbp | by apply NoDup_keys_snoc].
  - destruct (exec_derived_collection_fresh c s)
      as [-> | [(u & h & Hnone & ->) | (u & h & ->)]].
    + exact Hdv.
    + by apply (NoDup_keys_snoc dv_urim _
                  {| dv_urim := u; raw_simhash := Some h |}).
    + by rewrite update_raw_simhash_urims.
Qed.

End StoreInvariants.

(** ** Further properties of the off-topic detection *)

(** X15: A measure that is not in the registry makes [detect_off_topic] raise the
    [KeyError] of the lookup before anything is computed, whatever measures
    follow it in the mapping. *)
Theorem detect_off_topic_unsupported_measure
  (supported_timemap_measures : string -> option MeasureEntry)
  (measure : string) (threshold : Q) (rest : list (string * Q))
  (num_topics : option nat) (s : Model) :
  supported_timemap_measures measure = None ->
  detect_off_topic supported_timemap_measures ((measure, threshold) :: rest)
    num_topics s = (Raise (KeyError measure), s).
Proof.
  intros Hnone. unfold detect_off_topic. cbn [for_each].
  unfold detect_off_topic_body, run_measure, lookup_measure. rewrite Hnone.
  reflexivity.
Qed.

(** [get_list_of_ontopic] lists, TimeMap after TimeMap, the URI-Ms whose
    overall status is on-topic: a URI-M listed in two TimeMaps is listed
    twice, and one whose status is missing is left out. *)
Lemma get_list_of_ontopic_is_a_filter (mm : MeasureModel) :
  get_list_of_ontopic mm
  = List.filter
      (fun urim => match get_overall_off_topic_status mm urim with
                   | Some OnTopic => true
                   | _ => false
                   end)
      (concat (map snd (scoremodel mm))).
Proof.
  unfold get_list_of_ontopic. induction (scoremodel mm) as [|[urit urims] l IH];
    simpl; [reflexivity|].
  rewrite List.filter_app, IH. reflexivity.
Qed.

(** * Properties of the command-line input types *)

Lemma contains_count (c : ascii) (s : string) :
  contains c s = false <-> count_char c s = 0%nat.
Proof.
  induction s as [|a r IH]; simpl; [done|].
  destruct (Ascii.eqb a c); simpl; [split; [discriminate | lia]|exact IH].
Qed.

Lemma split_on_length (sep : ascii) (s : string) :
  length (split_on sep s) = S (count_char sep s).
Proof.
  induction s as [|a r IH]; simpl; [reflexivity|].
  destruct (Ascii.eqb a sep); simpl; [by rewrite IH|].
  destruct (split_on sep r); simpl in *; [discriminate | exact IH].
Qed.

Lemma split_on_without (sep : ascii) (s : string) :
  contains sep s = false -> split_on sep s = [s].
Proof.
  induction s as [|a r IH]; simpl; [reflexivity|].
  destruct (Ascii.eqb a sep); simpl; [discriminate|].
  intros H. by rewrite (IH H).
Qed.

Lemma split_on_first (sep : ascii) (t a : string) :
  contains sep t = false ->
  split_on sep (t +:+ String sep a) = t :: split_on sep a.
Proof.
  induction t as [|c t IH]; simpl.
  - intros _. by rewrite Ascii.eqb_refl.
  - destruct (Ascii.eqb c sep); simpl; [discriminate|].
    intros H. by rewrite (IH H).
Qed.

(** The pieces hold no separator, and joined by it they give the string
    back. *)
Lemma split_on_two (sep : ascii) (s t a : string) :
  split_on sep s = [t; a] ->
  s = t +:+ String sep a /\ contains sep t = false /\ contains sep a = false.
Proof.
  revert t. induction s as [|c r IH]; intros t; simpl; [discriminate|].
  destruct (Ascii.eqb c sep) eqn:E.
  - apply Ascii.eqb_eq in E. subst c. intros [= <- Hr].
    assert (Hlen := split_on_length sep r). rewrite Hr in Hlen. simpl in Hlen.
    assert (Hc : contains sep r = false) by (apply contains_count; lia).
    rewrite (split_on_without sep r Hc) in Hr. injection Hr as ->.
    by repeat split.
  - destruct (split_on sep r) as [|piece pieces] eqn:Hr; [discriminate|].
    intros [= <- ->]. destruct (IH piece eq_refl) as (-> & Hp & Ha).
    simpl. rewrite E. by repeat split.
Qed.

Lemma supported_input_types_have_no_equals (t : string) :
  existsb (String.eqb t) supported_input_types = true -> contains "=" t = false.
Proof.
  unfold supported_input_types. simpl. rewrite !orb_true_iff.
  intros [H|[H|[H|[H|[H|H]]]]]; try discriminate;
    apply String.eqb_eq in H; subst; reflexivity.
Qed.

(** X16: [process_collection_input_types] accepts exactly the arguments of the
    form [type=argument] with a supported type and no further [=] in the
    argument, and returns the two parts. *)
Theorem process_collection_input_types_accepts (x t a : string) :
  process_collection_input_types x = inr (t, a) <->
  In t supported_input_types /\ x = t +:+ "=" +:+ a /\ contains "=" a = false.
Proof.
  unfold process_collection_input_types. split.
  - destruct (contains "=" x); cbn [negb]; [|discriminate].
    destruct (split_on "=" x) as [|t' [|a' [|? ?]]] eqn:Hsplit; try discriminate.
    destruct (existsb (String.eqb t') supported_input_types) eqn:Hsup; cbn [negb];
      [|discriminate].
    intros [= <- <-]. apply split_on_two in Hsplit as (-> & _ & Ha).
    split; [|by split].
    apply existsb_exists in Hsup as (t0 & Hin & ->%String.eqb_eq). exact Hin.
  - intros (Hin & -> & Ha).
    assert (Hsup : existsb (String.eqb t) supported_input_types = true).
    { apply existsb_exists. exists t. split; [exact Hin | apply String.eqb_refl]. }
    pose proof (supported_input_types_have_no_equals t Hsup) as Ht.
    assert (Hc : contains "=" (t +:+ "=" +:+ a) = true).
    { clear -Ht. induction t as [|c t IH]; simpl in *; [reflexivity|].
      destruct (Ascii.eqb c "="); [reflexivity | by apply IH]. }
    rewrite Hc. cbn [negb].
    change (t +:+ "=" +:+ a) with (t +:+ String "=" a).
    rewrite (split_on_first "=" t a Ht), (split_on_without "=" a Ha), Hsup.
    reflexivity.
Qed.

(** X17: An argument with a second [=], as in a URL with a query string, does
    not reach the check of the input type: the unpacking of the split raises
    [ValueError]. *)
Theorem process_collection_input_types_second_equals (x : string) :
  (2 <= count_char "=" x)%nat ->
  process_collection_input_types x
    = inl (UnpackValueError "too many values to unpack (expected 2)").
Proof.
  intros Hcount. unfold process_collection_input_types.
  assert (Hc : contains "=" x = true).
  { destruct (contains "=" x) eqn:E; [reflexivity|].
    apply contains_count in E. lia. }
  rewrite Hc. cbn [negb].
  pose proof (split_on_length "=" x) as Hlen.
  destruct (split_on "=" x) as [|? [|? [|? ?]]]; simpl in Hlen; try lia.
  reflexivity.
Qed.

(** X18: Without any [=] the argument is refused with the usage message, and
    with one [=] after a type that is not supported it is refused by naming
    the type. *)
Theorem process_collection_input_types_refuses (x : string) :
  (count_char "=" x <= 1)%nat ->
  (forall t a, x = t +:+ "=" +:+ a -> ~ In t supported_input_types) ->
  exists msg, process_collection_input_types x = inl (ArgumentTypeError msg).
Proof.
  intros Hcount Hunsupported. unfold process_collection_input_types.
  destruct (contains "=" x) eqn:Hc; cbn [negb]; [|eauto].
  pose proof (split_on_length "=" x) as Hlen.
  destruct (split_on "=" x) as [|t [|a [|? ?]]] eqn:Hsplit; simpl in Hlen; try lia.
  - exfalso. assert (count_char "=" x = 0%nat) by lia.
    apply contains_count in H. congruence.
  - apply split_on_two in Hsplit as (-> & _ & _).
    destruct (existsb (String.eqb t) supported_input_types) eqn:Hsup; cbn [negb];
      [|eauto].
    exfalso. apply existsb_exists in Hsup as (t0 & Hin & ->%String.eqb_eq).
    exact (Hunsupported t0 a eq_refl Hin).
Qed.

(** * Properties of the story of [raintale_story] *)







(** * Properties of the top terms *)

Section SortedDescendingFacts.

Context {A : Type} (cmp : A -> A -> comparison).
Hypothesis cmp_Comparison : Comparison cmp.

(** [y] does not come after [x]: [x >= y]. *)
Let ge (x y : A) : Prop := cmp y x <> Gt.

Lemma ge_refl (x : A) : ge x x.
Proof. unfold ge. by rewrite (cmp_refl _ cmp_Comparison). Qed.







End SortedDescendingFacts.




(** * What the collection model never takes back *)

Section AppendOnly.

Variable session_get : URI -> FetchResult.
Variable generate_raw_urim : URI -> URI.
Variable justext : string -> JustextResult.
Variable Simhash : string -> N.
Variable TimeMapDict : Type.
Variable convert_LinkTimeMap_to_dict : string -> option TimeMapDict.
Variable strptime : string -> option datetime.

Lemma exec_registered_lists (c : MethodCall) (s : Model) :
  let s' := exec session_get generate_raw_urim justext Simhash TimeMapDict
              convert_LinkTimeMap_to_dict strptime c s in
  urimlist s `prefix_of` urimlist s' /\ uritlist s `prefix_of` uritlist s'.
Proof.
  destruct c;
    try (unfold_methods; repeat break_match; cbn [fst snd];
         by (split; first [reflexivity | by eexists])).
  - cbn [exec].
    destruct (addManyMementos_unfold session_get generate_raw_urim latency draw
                fuel urims s) as (futures & s0 & -> & _ & _ & _ & _ & Hm & Ht).
    destruct (poll_frame draw fuel 0 urims futures s0) as (_ & _ & -> & -> & _).
    by rewrite Hm, Ht.
  - destruct (getFirstURIMByRawSimhash_same_stores session_get strptime h s)
      as (_ & _ & _ & Hm & Ht).
    cbv zeta. cbn [exec]. unfold after. by rewrite Hm, Ht.
Qed.

(** X10: Whatever methods are called, the registered URI-Ms and URI-Ts, the
    Error Records and the boilerplate documents that were there are still
    there, at the same places: these four only grow at their end. *)
Theorem collection_model_only_appends (cs : list MethodCall) (s : Model) :
  let s' := exec_all session_get generate_raw_urim justext Simhash TimeMapDict
              convert_LinkTimeMap_to_dict strptime cs s in
  urimlist s `prefix_of` urimlist s' /\
  uritlist s `prefix_of` uritlist s' /\
  error_collection s `prefix_of` error_collection s' /\
  bpfree_collection s `prefix_of` bpfree_collection s'.
Proof.
  cbv zeta. revert s. induction cs as [|c cs IH]; intros s; simpl; [done|].
  match goal with |- context [exec_all _ _ _ _ _ _ _ cs ?s1] =>
    destruct (IH s1) as (I1 & I2 & I3 & I4) end.
  destruct (exec_registered_lists c s) as [E1 E2].
  destruct (exec_error_collection session_get generate_raw_urim justext Simhash
              TimeMapDict convert_LinkTimeMap_to_dict strptime c s) as (l3 & E3 & _).
  destruct (exec_bpfree_collection session_get generate_raw_urim justext Simhash
              TimeMapDict convert_LinkTimeMap_to_dict strptime c s) as (l4 & E4).
  repeat split.
  - by etrans.
  - by etrans.
  - etrans; [|exact I3]. rewrite E3. by eexists.
  - etrans; [|exact I4]. rewrite E4. by eexists.
Qed.

End AppendOnly.

(** * The further properties on the example collections *)

Lemma archive_batch_NoDup : NoDup ["uriA"; "uriB"; "gone"].
Proof.
  repeat (apply NoDup_cons; split;
          [rewrite list_elem_of_In; simpl; intuition discriminate|]).
  apply NoDup_nil_2.
Qed.

Lemma archive_batch_fetched (u : URI) :
  u ∈ ["uriA"; "uriB"; "gone"] -> exists r, archive_get u = Fetched r.
Proof.
  rewrite list_elem_of_In. simpl.
  intros [<- | [<- | [<- | []]]]; eexists; reflexivity.
Qed.

Lemma addManyMementos_converges_on_the_archive :
  exists s' l,
    addManyMementos archive_get archive_raw_urim (fun _ => 2%nat) (fun t => t)
      5 ["uriA"; "uriB"; "gone"] init = Finished (Ok tt) s' /\
    error_collection s' = error_collection init ++ l /\
    map err_urim l
      ≡ₚ List.filter (lacks_memento_datetime archive_get) ["uriA"; "uriB"; "gone"] /\
    (forall d, d ∈ l ->
       error_information d
         = ErrStr ("URI-M " +:+ err_urim d +:+ " does not produce a memento")) /\
    bpfree_collection s' = bpfree_collection init /\
    derived_collection s' = derived_collection init /\
    urimlist s' = urimlist init /\
    uritlist s' = uritlist init.
Proof.
  apply (addManyMementos_converges archive_get archive_raw_urim (fun _ => 2%nat)
           (fun t => t) 5 ["uriA"; "uriB"; "gone"] init).
  - exact archive_batch_NoDup.
  - exact archive_batch_fetched.
  - vm_compute. lia.
Defined.

Lemma addManyMementos_error_information_of_gone :
  exists s',
    addManyMementos archive_get archive_raw_urim (fun _ => 2%nat) (fun t => t)
      5 ["uriA"; "uriB"; "gone"] init = Finished (Ok tt) s' /\
    fst (getMementoErrorInformation "gone" s')
      = Ok (if lacks_memento_datetime archive_get "gone"
            then Some (ErrStr ("URI-M " +:+ "gone" +:+ " does not produce a memento"))
            else None).
Proof.
  apply (addManyMementos_error_information archive_get archive_raw_urim
           (fun _ => 2%nat) (fun t => t) 5 ["uriA"; "uriB"; "gone"] init "gone").
  - exact archive_batch_NoDup.
  - exact archive_batch_fetched.
  - vm_compute. lia.
  - apply list_elem_of_In. simpl. tauto.
  - reflexivity.
Defined.

Lemma addManyMementos_twice_the_same_URI_M :
  exists k s',
    addManyMementos archive_get archive_raw_urim (fun _ => 0%nat) (fun _ => 0%nat)
      2 ["uriA"; "uriA"] init = Finished (Raise (KeyError k)) s' /\
    k ∈ ["uriA"; "uriA"].
Proof.
  apply (addManyMementos_duplicate_raises_KeyError archive_get archive_raw_urim
           (fun _ => 0%nat) (fun _ => 0%nat) 2 ["uriA"; "uriA"] init).
  - intros Hnd. apply NoDup_cons in Hnd as [Hnotin _]. apply Hnotin. by left.
  - intros u Hu. apply list_elem_of_In in Hu. simpl in Hu.
    destruct Hu as [<- | [<- | []]]; eexists; reflexivity.
  - vm_compute. lia.
Defined.

Lemma addMemento_of_unreachable_host_is_recorded :
  let s' := after (addMemento archive_get archive_raw_urim "down") init in
  fst (addMemento archive_get archive_raw_urim "down" init) = Ok tt /\
  urimlist s' = urimlist init /\
  error_collection s'
    = error_collection init
      ++ [{| err_urim := "down";
             error_information :=
               ErrBytes (repr (ConnectionError "ConnectionError('unreachable')")) |}] /\
  getMementoContentWithoutBoilerplate archive_get archive_raw_urim archive_justext
    "down" s'
    = (Raise (CollectionModelMementoErrorException
                ("Errors were recorded for URI-M " +:+ "down")), s') /\
  getRawSimhash archive_get archive_raw_urim archive_Simhash "down" s'
    = (Raise (CollectionModelMementoErrorException
                ("Errors were recorded for URI-M " +:+ "down")), s').
Proof.
  apply (addMemento_failure_is_recorded archive_get archive_raw_urim archive_justext
           archive_Simhash "down" (ConnectionError "ConnectionError('unreachable')")
           init); reflexivity.
Defined.

Lemma addMemento_timeout_propagates :
  fst (addMemento timeout_get archive_raw_urim "uriA" init)
    = Raise (RequestExn (OtherRequestException "ReadTimeout('timed out')")) /\
  same_stores init (after (addMemento timeout_get archive_raw_urim "uriA") init).
Proof.
  apply (addMemento_other_exception_propagates timeout_get archive_raw_urim "uriA"
           (OtherRequestException "ReadTimeout('timed out')") init); reflexivity.
Defined.

Lemma error_information_of_down_is_permanent :
  let s := after (addMemento archive_get archive_raw_urim "down") init in
  fst (getMementoErrorInformation "down"
         (exec_all archive_get archive_raw_urim archive_justext archive_Simhash
            (list URI) archive_convert archive_strptime
            [AddMementoError "down" (ErrStr "again"); AddMemento "down"] s))
  = Ok (Some (ErrBytes "ConnectionError('unreachable')")).
Proof.
  apply (error_information_is_permanent archive_get archive_raw_urim archive_justext
           archive_Simhash (list URI) archive_convert archive_strptime "down").
  reflexivity.
Defined.

Lemma getMementoContent_writes_nothing :
  same_stores fingerprinted
    (exec archive_get archive_raw_urim archive_justext archive_Simhash (list URI)
       archive_convert archive_strptime (GetMementoContent "uriA") fingerprinted).
Proof.
  apply (read_only_calls_write_nothing archive_get archive_raw_urim archive_justext
           archive_Simhash (list URI) archive_convert archive_strptime
           (GetMementoContent "uriA") fingerprinted).
  reflexivity.
Defined.

Lemma getFirstURIMByRawSimhash_on_a_new_model :
  getFirstURIMByRawSimhash archive_get archive_strptime "8" init
    = (Raise IndexError, init).
Proof.
  apply (getFirstURIMByRawSimhash_unknown_fingerprint archive_get archive_strptime
           "8" init).
  intros d Hd. by inversion Hd.
Defined.

Lemma getRawSimhash_of_uriA_then_first :
  let s1 := after (getRawSimhash archive_get archive_raw_urim archive_Simhash "uriA")
              init in
  "uriA" ∈ find_by_raw_simhash "8" (derived_collection s1) /\
  fst (getFirstURIMByRawSimhash archive_get archive_strptime "8" s1)
    <> Raise IndexError.
Proof.
  apply (getRawSimhash_then_getFirstURIMByRawSimhash archive_get archive_raw_urim
           archive_Simhash archive_strptime "uriA" "8" init).
  vm_compute. reflexivity.
Defined.

Lemma boilerplate_removal_of_a_blank_page_fails :
  let s' := after (getMementoContentWithoutBoilerplate blank_get archive_raw_urim
                     archive_justext "uriA") init in
  fst (getMementoContentWithoutBoilerplate blank_get archive_raw_urim
         archive_justext "uriA" init)
    = Raise (CollectionModelBoilerPlateRemovalFailureException
               "ParserError('Document is empty')") /\
  same_stores init s' /\
  stored_bpfree "uriA" s' = None /\
  justext_calls s' = S (justext_calls init).
Proof.
  apply (boilerplate_removal_failure_is_not_stored blank_get archive_raw_urim
           archive_justext "uriA" (page 200 ∅ "")
           "ParserError('Document is empty')" init);
    try reflexivity.
  left. reflexivity.
Defined.

Lemma one_document_per_URI_M_in_the_archive :
  let s' := exec_all archive_get archive_raw_urim archive_justext archive_Simhash
              (list URI) archive_convert archive_strptime
              [GetRawSimhash "uriA"; GetRawSimhash "uriA";
               GetMementoContentWithoutBoilerplate "uriA";
               GetMementoContentWithoutBoilerplate "uriA"] init in
  NoDup (map bp_urim (bpfree_collection s')) /\
  NoDup (map dv_urim (derived_collection s')).
Proof.
  apply (one_document_per_URI_M archive_get archive_raw_urim archive_justext
           archive_Simhash (list URI) archive_convert archive_strptime);
    apply NoDup_nil_2.
Defined.

Lemma detect_off_topic_with_an_unknown_measure :
  detect_off_topic two_measures [("m3", 5 # 10); ("m1", 5 # 10)] None init
    = (Raise (KeyError "m3"), init).
Proof.
  apply (detect_off_topic_unsupported_measure two_measures "m3" (5 # 10)
           [("m1", 5 # 10)] None init).
  reflexivity.
Defined.

Lemma process_collection_input_types_of_a_query_string :
  process_collection_input_types "timemaps=https://archive.example.org/?q=1"
    = inl (UnpackValueError "too many values to unpack (expected 2)").
Proof.
  apply process_collection_input_types_second_equals. vm_compute. lia.
Defined.

Lemma process_collection_input_types_of_timemap :
  exists msg,
    process_collection_input_types "timemap=x" = inl (ArgumentTypeError msg).
Proof.
  apply process_collection_input_types_refuses.
  - vm_compute. lia.
  - intros t a Heq Hin. unfold supported_input_types in Hin. simpl in Hin.
    destruct Hin as [<- | [<- | [<- | [<- | [<- | []]]]]]; discriminate.
Defined.



(** The numeric [id] of that collection makes the title ["Archive-It
    Collection"] fail. *)
Lemma raintale_story_of_collection_694_with_the_default_title :
  raintale_story_title (Some "Archive-It Collection") (Some collection_metadata_694)
    = StoryRaises TypeError.
Proof. reflexivity. Qed.


Lemma top_two_terms_are_students_and_campus :
  top_terms term_rows 2 = ["students"; "campus"].
Proof. reflexivity. Qed.
